(** * rideSharingApp.js: a shallow embedding and its checked properties

    The development follows the classes of [rideSharingApp.js]:
    [EventEmitter], [User] / [PremiumUser], [Driver] / [VIPDriver], [Ride],
    [RideFactory], [PaymentService] and the controller [RideSharingApp].
    The file holds the program twice; the embedding follows the second,
    later text, in which [startApp] tests the type of its argument and
    the loop of [processMultipleRides] has the VIP test.

    Conventions of the embedding.
    - A JavaScript number is a rational [Q].  The program only produces
      integers (distances, fares, balances) and half-integers (ratings
      divided by two), on which IEEE doubles are exact far below 2^53;
      NaN and the infinities are not represented.
    - Objects that the program shares by reference (the riders of
      [this.users], the drivers of [this.drivers], the rides of
      [this.rides]) live in lists of the controller state and are named by
      their index, so an update through [ride.user] is an update of the
      rider in [this.users].  A reference that JavaScript would find
      [undefined] is [None].
    - [Math.random()] reads the next value of a sequence carried by the
      state; the definitions assume nothing about the sequence, and a
      theorem that needs a draw to lie in [0, 1) says so.
    - [console.log] / [console.error] append to a trace.
    - [setTimeout] appends to a timer list ordered by deadline; awaiting
      the generator's 2000 ms promise runs the callbacks that are due, and
      [settle] runs those still pending once the program is idle. *)

From Stdlib Require Import QArith Qround ZArith String Ascii List DecimalString Lia Lqa.
From Stdlib Require Import Decimal DecimalFacts DecimalPos.
From stdpp Require Import base option list strings gmap.

Local Open Scope string_scope.

(** ** JavaScript values, exceptions and console output *)

(** A piece of a template literal: literal text or an interpolated number. *)
Inductive Piece : Type :=
| Lit (s : string)
| Num (q : Q).

Definition text : Type := list Piece.

(** [`${x}`] where [x] may be [undefined]. *)
Definition interp (x : option string) : Piece :=
  match x with
  | Some s => Lit s
  | None => Lit "undefined"
  end.

Inductive Exn : Type :=
| Error (message : text)
| TypeError (message : text)
| ReferenceError (message : text).

Inductive JsValue : Type :=
| JsUndefined
| JsBool (b : bool)
| JsNum (q : Q)
| JsStr (s : string)
| JsObject
| JsFunction.

(** ToBoolean. *)
Definition truthy (v : JsValue) : bool :=
  match v with
  | JsUndefined => false
  | JsBool b => b
  | JsNum q => negb (Qeq_bool q 0)
  | JsStr s => negb (String.eqb s "")
  | JsObject => true
  | JsFunction => true
  end.

(** [typeof v]. *)
Definition typeof (v : JsValue) : string :=
  match v with
  | JsUndefined => "undefined"
  | JsBool _ => "boolean"
  | JsNum _ => "number"
  | JsStr _ => "string"
  | JsObject => "object"
  | JsFunction => "function"
  end.

Inductive ErrArg : Type :=
| ArgMessage (m : text)
| ArgExn (e : Exn).

Inductive Output : Type :=
| console_log (t : text)
| console_error (label : string) (arg : ErrArg).

Definition message (e : Exn) : text :=
  match e with
  | Error m => m
  | TypeError m => m
  | ReferenceError m => m
  end.

(** Comparisons of numbers. *)
Definition num_ge (a b : Q) : bool := Qle_bool b a.
Definition num_gt (a b : Q) : bool := negb (Qle_bool a b).
Definition num_lt (a b : Q) : bool := negb (Qle_bool b a).
Definition num_eq (a b : Q) : bool := Qeq_bool a b.

(** [Math.floor]. *)
Definition Math_floor (q : Q) : Z := Qfloor q.

(** [array[i]] for a numeric index: out of range is [undefined]. *)
Definition index {A : Type} (array : list A) (i : Z) : option A :=
  if (i <? 0)%Z then None else array !! Z.to_nat i.

(** [n.toString()] of an integer that JavaScript writes in plain decimal
    (absolute value below 10^21). *)
Definition toString (n : Z) : string := NilZero.string_of_int (Z.to_int n).

Fixpoint repeat_char (c : ascii) (n : nat) : string :=
  match n with
  | O => ""
  | S n' => String c (repeat_char c n')
  end.

(** [s.padStart(width, c)] with a one-character filler. *)
Definition padStart (width : nat) (c : ascii) (s : string) : string :=
  repeat_char c (width - String.length s) ++ s.

(** ** EventEmitter (observer pattern) *)

(** The string-keyed members of [Object.prototype], which every plain
    object inherits. *)
Definition Object_prototype : list string :=
  [ "constructor"; "hasOwnProperty"; "isPrototypeOf"; "propertyIsEnumerable";
    "toLocaleString"; "toString"; "valueOf"; "__proto__";
    "__defineGetter__"; "__defineSetter__"; "__lookupGetter__";
    "__lookupSetter__" ].

(** [name in {}]: the name is one that a plain object inherits. *)
Definition inherited (name : string) : bool :=
  existsb (String.eqb name) Object_prototype.

Module EventEmitter.

Record Payload : Type := { name : string; points : option Q }.

Definition Callback : Type := Payload -> list Output.

(** [this.listeners]: a plain object used as a map from event names; the
    map holds its own properties.  For an event name that is [inherited]
    the source finds the member of [Object.prototype] instead of
    [undefined] and fails on its [push] / [forEach] with a TypeError;
    such names are outside the embedding, and what is stated of [on] and
    [emit] for an arbitrary name excludes them.  The four events of the
    program are not inherited names. *)
Definition t : Type := gmap string (list Callback).

(** [constructor()] *)
Definition new : t := ∅.

(** [on(event, callback)] *)
Definition on (event : string) (callback : Callback) (this : t) : t :=
  match this !! event with
  | None => <[event := [callback]]> this
  | Some cbs => <[event := (cbs ++ [callback])%list]> this
  end.

(** [emit(event, data)]: the callbacks run in subscription order. *)
Definition emit (event : string) (data : Payload) (this : t) : list Output :=
  match this !! event with
  | Some cbs => concat (map (fun callback => callback data) cbs)
  | None => []
  end.

End EventEmitter.

(** ** Funding instruments and the card-number pattern *)

(** [paymentDetails.cardNumber]: the seed data store a number, a caller may
    store a string; [regex.exec] converts its argument to a string.  A
    number is an integer; from 10^21 on JavaScript prints an exponent where
    [toString] prints more than 16 digits, and the pattern rejects both. *)
Inductive CardNumber : Type :=
| CardNum (n : Z)
| CardStr (s : string).

Definition cardString (c : CardNumber) : string :=
  match c with
  | CardNum n => toString n
  | CardStr s => s
  end.

Record PaymentDetails : Type := {
  cardNumber : CardNumber;
  expirationDate : Q;
  balance : Q
}.

Definition set_balance (b : Q) (pd : PaymentDetails) : PaymentDetails :=
  {| cardNumber := cardNumber pd;
     expirationDate := expirationDate pd;
     balance := b |}.

(** [\d] *)
Definition is_digit (c : ascii) : bool :=
  let n := nat_of_ascii c in (48 <=? n)%nat && (n <=? 57)%nat.

(** Matches [\d{n}$] at the head of [s]. *)
Fixpoint match_digits (n : nat) (s : string) : bool :=
  match n, s with
  | O, EmptyString => true
  | S n', String c s' => is_digit c && match_digits n' s'
  | _, _ => false
  end.

(** [/^\d{16}$/g.exec(x)] is not [null]; the literal is evaluated at each
    call, so [lastIndex] is 0. *)
Definition regex_exec (x : CardNumber) : bool := match_digits 16 (cardString x).

(** ** User and PremiumUser *)

Module User.

(** The class an object was constructed by: it decides which methods the
    prototype chain offers. *)
Inductive Class : Type :=
| ClassUser
| ClassPremiumUser.

Record t : Type := {
  class : Class;
  id : string;
  name : string;
  paymentDetails : PaymentDetails;   (* #paymentDetails, read by the getter *)
  inRide : bool;
  premiumPoints : Q;
  isPremium : bool
}.

(** [constructor(id, name, paymentDetails, inRide, premiumPoints)].  The
    seed data pass [false] for [premiumPoints]; [+=] and [>=] read it as
    the number 0, which is what the embedding stores. *)
Definition new (id name : string) (paymentDetails : PaymentDetails)
    (inRide : bool) (premiumPoints : Q) : t :=
  {| class := ClassUser; id := id; name := name;
     paymentDetails := paymentDetails; inRide := inRide;
     premiumPoints := premiumPoints; isPremium := false |}.

Definition set_class (c : Class) (this : t) : t :=
  {| class := c; id := id this; name := name this;
     paymentDetails := paymentDetails this; inRide := inRide this;
     premiumPoints := premiumPoints this; isPremium := isPremium this |}.

Definition set_paymentDetails (pd : PaymentDetails) (this : t) : t :=
  {| class := class this; id := id this; name := name this;
     paymentDetails := pd; inRide := inRide this;
     premiumPoints := premiumPoints this; isPremium := isPremium this |}.

Definition set_inRide (b : bool) (this : t) : t :=
  {| class := class this; id := id this; name := name this;
     paymentDetails := paymentDetails this; inRide := b;
     premiumPoints := premiumPoints this; isPremium := isPremium this |}.

Definition set_premiumPoints (p : Q) (this : t) : t :=
  {| class := class this; id := id this; name := name this;
     paymentDetails := paymentDetails this; inRide := inRide this;
     premiumPoints := p; isPremium := isPremium this |}.

Definition set_isPremium (b : bool) (this : t) : t :=
  {| class := class this; id := id this; name := name this;
     paymentDetails := paymentDetails this; inRide := inRide this;
     premiumPoints := premiumPoints this; isPremium := b |}.

(** [upgradeToPremium(eventEmitter)] *)
Definition upgradeToPremium (eventEmitter : EventEmitter.t) (this : t)
    : t * list Output :=
  let this := set_isPremium true this in
  (this,
   EventEmitter.emit "premiumUser"
     {| EventEmitter.name := name this; EventEmitter.points := None |}
     eventEmitter).

(** [checkForUpgrade(eventEmitter)] *)
Definition checkForUpgrade (eventEmitter : EventEmitter.t) (this : t)
    : t * list Output :=
  if num_ge (premiumPoints this) 50 && negb (isPremium this)
  then upgradeToPremium eventEmitter this
  else (this, []).

(** [addPoints(points, eventEmitter)] *)
Definition addPoints (points : Q) (eventEmitter : EventEmitter.t) (this : t)
    : t * list Output :=
  let this := set_premiumPoints (premiumPoints this + points)%Q this in
  let out1 :=
    EventEmitter.emit "pointsEarned"
      {| EventEmitter.name := name this; EventEmitter.points := Some points |}
      eventEmitter in
  let (this, out2) := checkForUpgrade eventEmitter this in
  (this, (out1 ++ out2)%list).

(** [this[prop]]: the own properties set by the constructor, then the
    methods and the getter of the prototype chain ([PremiumUser.prototype]
    for an object of that class, then [User.prototype]); the members of
    [Object.prototype] are left out.  Any other name reads as [undefined]. *)
Definition get (this : t) (prop : string) : JsValue :=
  if String.eqb prop "id" then JsStr (id this)
  else if String.eqb prop "name" then JsStr (name this)
  else if String.eqb prop "inRide" then JsBool (inRide this)
  else if String.eqb prop "premiumPoints" then JsNum (premiumPoints this)
  else if String.eqb prop "isPremium" then JsBool (isPremium this)
  else if String.eqb prop "paymentDetails" then JsObject
  else if String.eqb prop "addPoints" then JsFunction
  else if String.eqb prop "checkForUpgrade" then JsFunction
  else if String.eqb prop "upgradeToPremium" then JsFunction
  else if String.eqb prop "constructor" then JsFunction
  else if String.eqb prop "getDiscount" then
    match class this with
    | ClassPremiumUser => JsFunction
    | ClassUser => JsUndefined
    end
  else JsUndefined.

End User.

Module PremiumUser.

(** [constructor(...)]: [super(...)] then [this.isPremium = true]. *)
Definition new (id name : string) (paymentDetails : PaymentDetails)
    (inRide : bool) (premiumPoints : Q) : User.t :=
  User.set_isPremium true
    (User.set_class User.ClassPremiumUser
       (User.new id name paymentDetails inRide premiumPoints)).

(** [getDiscount()]; no function of the program calls it. *)
Definition getDiscount (this : User.t) : Q := 1 # 10.

End PremiumUser.

(** ** Driver *)

Module Driver.

Record t : Type := {
  id : Z;
  name : string;
  profit : Q;
  isAvailable : bool;
  isVIP : bool;
  VIPRaiting : Q
}.

(** [constructor(id, name, profit, isAvailable)] *)
Definition new (id : Z) (name : string) (profit : Q) (isAvailable : bool) : t :=
  {| id := id; name := name; profit := profit; isAvailable := isAvailable;
     isVIP := false; VIPRaiting := 0 |}.

Definition set_profit (p : Q) (this : t) : t :=
  {| id := id this; name := name this; profit := p;
     isAvailable := isAvailable this; isVIP := isVIP this;
     VIPRaiting := VIPRaiting this |}.

Definition set_isAvailable (b : bool) (this : t) : t :=
  {| id := id this; name := name this; profit := profit this;
     isAvailable := b; isVIP := isVIP this;
     VIPRaiting := VIPRaiting this |}.

Definition set_isVIP (b : bool) (this : t) : t :=
  {| id := id this; name := name this; profit := profit this;
     isAvailable := isAvailable this; isVIP := b;
     VIPRaiting := VIPRaiting this |}.

Definition set_VIPRaiting (r : Q) (this : t) : t :=
  {| id := id this; name := name this; profit := profit this;
     isAvailable := isAvailable this; isVIP := isVIP this;
     VIPRaiting := r |}.

(** [upgradetoVIP(eventEmitter)] *)
Definition upgradetoVIP (eventEmitter : EventEmitter.t) (this : t)
    : t * list Output :=
  let this := set_isVIP true this in
  (this,
   EventEmitter.emit "VIPDriver"
     {| EventEmitter.name := name this; EventEmitter.points := None |}
     eventEmitter).

(** [downgradeToRegular(eventEmitter)] *)
Definition downgradeToRegular (eventEmitter : EventEmitter.t) (this : t)
    : t * list Output :=
  let this := set_isVIP false this in
  (this,
   EventEmitter.emit "regularDriver"
     {| EventEmitter.name := name this; EventEmitter.points := None |}
     eventEmitter).

(** [checkForUpgrade(eventEmitter)] *)
Definition checkForUpgrade (eventEmitter : EventEmitter.t) (this : t)
    : t * list Output :=
  if num_ge (VIPRaiting this) 4 && negb (isVIP this)
  then upgradetoVIP eventEmitter this
  else if num_lt (VIPRaiting this) 4 && isVIP this
  then downgradeToRegular eventEmitter this
  else (this, []).

(** [addRaiting(raiting, eventEmitter)].  The [if] has no [else]: the
    compound assignment runs on every call, also on the first. *)
Definition addRaiting (raiting : Q) (eventEmitter : EventEmitter.t) (this : t)
    : t * list Output :=
  let this :=
    if num_eq (VIPRaiting this) 0 then set_VIPRaiting raiting this else this in
  let this :=
    set_VIPRaiting (VIPRaiting this + (VIPRaiting this + raiting / 2))%Q this in
  checkForUpgrade eventEmitter this.

End Driver.

Module VIPDriver.

(** [constructor()]: it takes no parameter, and the arguments of its
    [super(id, name, profit, isAvailable)] call name no binding in scope;
    the first of them already fails, so no object of this class exists and
    a driver is VIP only through [addRaiting]. *)
Definition new : Exn + Driver.t :=
  inl (ReferenceError [Lit "id is not defined"]).

End VIPDriver.

(** ** Ride *)

Module Ride.

Record t : Type := {
  id : string;
  pickUp : option string;
  dropOff : option string;
  fare : Q;
  status : string;
  distance : Q;
  user : option nat;      (* reference into [this.users] *)
  driver : option nat     (* reference into [this.drivers] *)
}.

Definition set_status (st : string) (this : t) : t :=
  {| id := id this; pickUp := pickUp this; dropOff := dropOff this;
     fare := fare this; status := st; distance := distance this;
     user := user this; driver := driver this |}.

End Ride.

(** ** Controller state and the monad of the program's effects *)

(** A pending [setTimeout] of [rideCompleted]: its deadline and what the
    closure captured. *)
Record Timer : Type := {
  due : Q;
  timer_ride : nat;
  timer_raiting : Q
}.

Record State : Type := {
  users : list User.t;             (* this.users *)
  locations : list string;         (* this.locations *)
  drivers : list Driver.t;         (* this._drivers *)
  rides : list Ride.t;             (* this.rides *)
  eventEmitter : EventEmitter.t;   (* this.eventEmitter *)
  console : list Output;
  entropy : nat -> Q;              (* the values Math.random() returns *)
  drawn : nat;                     (* how many have been read *)
  clock : Q;                       (* milliseconds *)
  timers : list Timer
}.

Definition set_users (v : list User.t) (s : State) : State :=
  {| users := v; locations := locations s; drivers := drivers s;
     rides := rides s; eventEmitter := eventEmitter s; console := console s;
     entropy := entropy s; drawn := drawn s; clock := clock s;
     timers := timers s |}.

Definition set_drivers (v : list Driver.t) (s : State) : State :=
  {| users := users s; locations := locations s; drivers := v;
     rides := rides s; eventEmitter := eventEmitter s; console := console s;
     entropy := entropy s; drawn := drawn s; clock := clock s;
     timers := timers s |}.

Definition set_rides (v : list Ride.t) (s : State) : State :=
  {| users := users s; locations := locations s; drivers := drivers s;
     rides := v; eventEmitter := eventEmitter s; console := console s;
     entropy := entropy s; drawn := drawn s; clock := clock s;
     timers := timers s |}.

Definition set_console (v : list Output) (s : State) : State :=
  {| users := users s; locations := locations s; drivers := drivers s;
     rides := rides s; eventEmitter := eventEmitter s; console := v;
     entropy := entropy s; drawn := drawn s; clock := clock s;
     timers := timers s |}.

Definition set_drawn (v : nat) (s : State) : State :=
  {| users := users s; locations := locations s; drivers := drivers s;
     rides := rides s; eventEmitter := eventEmitter s; console := console s;
     entropy := entropy s; drawn := v; clock := clock s;
     timers := timers s |}.

Definition set_clock (v : Q) (s : State) : State :=
  {| users := users s; locations := locations s; drivers := drivers s;
     rides := rides s; eventEmitter := eventEmitter s; console := console s;
     entropy := entropy s; drawn := drawn s; clock := v;
     timers := timers s |}.

Definition set_timers (v : list Timer) (s : State) : State :=
  {| users := users s; locations := locations s; drivers := drivers s;
     rides := rides s; eventEmitter := eventEmitter s; console := console s;
     entropy := entropy s; drawn := drawn s; clock := clock s;
     timers := v |}.

(** How a call ends: normally with a value, or by throwing.  The state
    comes back in both cases: JavaScript undoes nothing on a throw. *)
Inductive Completion (A : Type) : Type :=
| Normal (a : A)
| Throw (e : Exn).

Arguments Normal {A} a.
Arguments Throw {A} e.

Definition M (A : Type) : Type := State -> Completion A * State.

Definition ret {A : Type} (a : A) : M A := fun s => (Normal a, s).

Definition bind {A B : Type} (m : M A) (k : A -> M B) : M B :=
  fun s =>
    match m s with
    | (Normal a, s') => k a s'
    | (Throw e, s') => (Throw e, s')
    end.

Definition throw {A : Type} (e : Exn) : M A := fun s => (Throw e, s).

(** [try { body } catch (error) { handler }] *)
Definition try_catch {A : Type} (body : M A) (handler : Exn -> M A) : M A :=
  fun s =>
    match body s with
    | (Normal a, s') => (Normal a, s')
    | (Throw e, s') => handler e s'
    end.

Definition get : M State := fun s => (Normal s, s).

Definition modify (f : State -> State) : M unit := fun s => (Normal tt, f s).

Declare Scope js_scope.
Delimit Scope js_scope with js.
Notation "'let*' x ':=' c1 'in' c2" := (bind c1 (fun x => c2))
  (at level 10, x name, c1 at level 100, c2 at level 200) : js_scope.
Notation "c1 ;; c2" := (bind c1 (fun _ => c2))
  (at level 100, c2 at level 200, right associativity) : js_scope.

Local Open Scope js_scope.

Definition log (t : text) : M unit :=
  modify (fun s => set_console (console s ++ [console_log t])%list s).

Definition log_error (label : string) (arg : ErrArg) : M unit :=
  modify (fun s => set_console (console s ++ [console_error label arg])%list s).

Definition emitted (out : list Output) : M unit :=
  modify (fun s => set_console (console s ++ out)%list s).

(** [Math.random()] *)
Definition Math_random : M Q :=
  fun s => (Normal (entropy s (drawn s)), set_drawn (S (drawn s)) s).

Definition cannot_read (prop : string) : Exn :=
  TypeError [Lit "Cannot read properties of undefined (reading '";
             Lit prop; Lit "')"].

Definition cannot_set (prop : string) : Exn :=
  TypeError [Lit "Cannot set properties of undefined (setting '";
             Lit prop; Lit "')"].

(** Reading property [prop] of the rider behind a reference. *)
Definition readUser (prop : string) (ref : option nat) : M User.t :=
  let* s := get in
  match ref ≫= (fun i => users s !! i) with
  | Some u => ret u
  | None => throw (cannot_read prop)
  end.

Definition readDriver (prop : string) (ref : option nat) : M Driver.t :=
  let* s := get in
  match ref ≫= (fun i => drivers s !! i) with
  | Some d => ret d
  | None => throw (cannot_read prop)
  end.

Definition readRide (ref : nat) : M Ride.t :=
  let* s := get in
  match rides s !! ref with
  | Some r => ret r
  | None => throw (cannot_read "user")
  end.

(** Assigning to a property of the object behind a reference. *)
Definition writeUser (prop : string) (ref : option nat) (f : User.t -> User.t)
    : M unit :=
  let* s := get in
  match ref ≫= (fun i => users s !! i ≫= (fun _ => Some i)) with
  | Some i => modify (fun s => set_users (alter f i (users s)) s)
  | None => throw (cannot_set prop)
  end.

Definition writeDriver (prop : string) (ref : option nat)
    (f : Driver.t -> Driver.t) : M unit :=
  let* s := get in
  match ref ≫= (fun i => drivers s !! i ≫= (fun _ => Some i)) with
  | Some i => modify (fun s => set_drivers (alter f i (drivers s)) s)
  | None => throw (cannot_set prop)
  end.

Definition writeRide (ref : nat) (f : Ride.t -> Ride.t) : M unit :=
  modify (fun s => set_rides (alter f ref (rides s)) s).

(** ** PaymentService *)

Module PaymentService.

(** [validatePayment(paymentDetails, fare)] *)
Definition validatePayment (paymentDetails : PaymentDetails) (fare : Q) : bool :=
  if regex_exec (cardNumber paymentDetails)
     && num_gt (expirationDate paymentDetails) 20
     && num_ge (balance paymentDetails) fare
  then true
  else false.

(** [processPayment(user, fare, driver)]: two compound assignments
    through the references it receives. *)
Definition processPayment (user : option nat) (fare : Q) (driver : option nat)
    : M unit :=
  let* u := readUser "paymentDetails" user in
  writeUser "balance" user
    (User.set_paymentDetails
       (set_balance (balance (User.paymentDetails u) - fare)%Q
                    (User.paymentDetails u))) ;;
  let* d := readDriver "profit" driver in
  writeDriver "profit" driver (Driver.set_profit (Driver.profit d + fare)%Q).

End PaymentService.

(** ** RideFactory *)

Module RideFactory.

(** [static rideRequest(pickUp, dropOff, user, driver)] *)
Definition rideRequest (pickUp dropOff : option string)
    (user driver : option nat) : M Ride.t :=
  let* r1 := Math_random in
  let distance := (inject_Z (Math_floor (r1 * 100)) + 1)%Q in
  let fare := (distance * 2)%Q in
  let* r2 := Math_random in
  let rideId := padStart 10 "0" (toString (Math_floor (r2 * 1000000))) in
  let status := "requested" in
  ret {| Ride.id := rideId; Ride.pickUp := pickUp; Ride.dropOff := dropOff;
         Ride.fare := fare; Ride.status := status; Ride.distance := distance;
         Ride.user := user; Ride.driver := driver |}.

End RideFactory.

(** ** RideSharingApp, the controller *)

(** What [fetch] and [response.json()] deliver. *)
Inductive FetchOutcome : Type :=
| FetchRejected (e : Exn)
| FetchResponse (ok : bool) (status : Q) (json : Exn + list (Z * string)).

(** The error that the guard of [*generateRides] throws. *)
Definition initError : Exn :=
  Error [Lit "Users, drivers, or locations are not properly initialized!"].

Module RideSharingApp.

(** [setupListenersPremium()] *)
Definition setupListenersPremium (eventEmitter : EventEmitter.t) : EventEmitter.t :=
  let eventEmitter :=
    EventEmitter.on "pointsEarned"
      (fun data =>
         [console_log
            [Lit (EventEmitter.name data); Lit " has earned ";
             match EventEmitter.points data with
             | Some p => Num p
             | None => Lit "undefined"
             end;
             Lit " points."]])
      eventEmitter in
  let eventEmitter :=
    EventEmitter.on "premiumUser"
      (fun data =>
         [console_log
            [Lit "Congratulations! "; Lit (EventEmitter.name data);
             Lit " has been upgraded to a Premium User!"]])
      eventEmitter in
  let eventEmitter :=
    EventEmitter.on "VIPDriver"
      (fun data =>
         [console_log
            [Lit "Congratulations! "; Lit (EventEmitter.name data);
             Lit " has been upgraded to a VIP Driver!"]])
      eventEmitter in
  EventEmitter.on "regularDriver"
    (fun data =>
       [console_log
          [Lit "Unfortunatelly, "; Lit (EventEmitter.name data);
           Lit " has been downgraded to a Regular Driver!"]])
    eventEmitter.

(** [constructor(paymentService, users, locations)], first instance.  The
    injected payment service is the one [PaymentService] of the file. *)
Definition new (users : list User.t) (locations : list string)
    (entropy : nat -> Q) : State :=
  {| users := users; locations := locations; drivers := []; rides := [];
     eventEmitter := setupListenersPremium EventEmitter.new;
     console := []; entropy := entropy; drawn := 0; clock := 0;
     timers := [] |}.

(** [fetchDrivers()] *)
Definition fetchDrivers (net : FetchOutcome) : M unit :=
  try_catch
    (match net with
     | FetchRejected e => throw e
     | FetchResponse ok status json =>
         if negb ok
         then throw (Error [Lit "Error! Response staus "; Num status; Lit "!"])
         else
           match json with
           | inl e => throw e
           | inr driversData =>
               modify (set_drivers
                         (map (fun d => Driver.new (fst d) (snd d) 0 true)
                              driversData))
           end
     end)
    (fun error => log_error "Error fetching drivers: " (ArgMessage (message error))).

(** [randomIndexMethod(array)] *)
Definition randomIndexMethod {A : Type} (array : list A) : M (option A) :=
  let* r := Math_random in
  let randomIndex := Math_floor (r * inject_Z (Z.of_nat (length array))) in
  ret (index array randomIndex).

(** [this.users.filter(u => !u.inRide)], as references. *)
Definition users_not_inRide (us : list User.t) : list nat :=
  List.filter
    (fun i => match us !! i with Some u => negb (User.inRide u) | None => false end)
    (seq 0 (length us)).

(** [this.drivers.filter(d => d.isAvailable)], as references. *)
Definition drivers_isAvailable (ds : list Driver.t) : list nat :=
  List.filter
    (fun i => match ds !! i with Some d => Driver.isAvailable d | None => false end)
    (seq 0 (length ds)).

(** One turn of the [for] loop of [*generateRides], up to its [yield];
    the result is the reference of the ride it pushed. *)
Definition generateRides_body : M nat :=
  let* s := get in
  if (length (locations s) =? 0)%nat
     || (length (users s) =? 0)%nat
     || (length (drivers s) =? 0)%nat
  then throw initError
  else
    let* pickUp := randomIndexMethod (locations s) in
    let* dropOff := randomIndexMethod (locations s) in
    let* user := randomIndexMethod (users_not_inRide (users s)) in
    let* driver := randomIndexMethod (drivers_isAvailable (drivers s)) in
    let* ride := RideFactory.rideRequest pickUp dropOff user driver in
    modify (fun s => set_rides (rides s ++ [ride])%list s) ;;
    let* u := readUser "name" user in
    log [Lit (User.name u); Lit " has requested a ride from "; interp pickUp;
         Lit " to "; interp dropOff; Lit "!"] ;;
    ret (length (rides s)).

(** [payment(ride)] *)
Definition payment (ride : nat) : M bool :=
  let* r := readRide ride in
  let user := Ride.user r in
  let driver := Ride.driver r in
  let fare := Ride.fare r in
  let* u := readUser "paymentDetails" user in
  let isValidPayment :=
    PaymentService.validatePayment (User.paymentDetails u) fare in
  if isValidPayment then
    PaymentService.processPayment user fare driver ;;
    let* u := readUser "name" user in
    log [Lit (User.name u); Lit " has paid for the ride!"] ;;
    ret true
  else
    let* u := readUser "name" user in
    log [Lit (User.name u); Lit " failed to pay!"] ;;
    ret false.

(** A method call [user.m(..., this.eventEmitter)] through a reference:
    the method updates the object and its listeners write to the console. *)
Definition callUser (prop : string) (ref : option nat)
    (method : EventEmitter.t -> User.t -> User.t * list Output) : M unit :=
  let* u := readUser prop ref in
  let* s := get in
  let (u', out) := method (eventEmitter s) u in
  writeUser prop ref (fun _ => u') ;;
  emitted out.

Definition callDriver (prop : string) (ref : option nat)
    (method : EventEmitter.t -> Driver.t -> Driver.t * list Output) : M unit :=
  let* d := readDriver prop ref in
  let* s := get in
  let (d', out) := method (eventEmitter s) d in
  writeDriver prop ref (fun _ => d') ;;
  emitted out.

(** [setTimeout(callback, duration)]: the timer list stays ordered by
    deadline, a new timer going behind those that are due no later. *)
Fixpoint insert_timer (t : Timer) (ts : list Timer) : list Timer :=
  match ts with
  | [] => [t]
  | t' :: ts' =>
      if Qle_bool (due t') (due t) then t' :: insert_timer t ts' else t :: ts
  end.

Definition setTimeout (ride : nat) (raiting : Q) (duration : Q) : M unit :=
  modify (fun s =>
    set_timers
      (insert_timer {| due := (clock s + duration)%Q; timer_ride := ride;
                       timer_raiting := raiting |}
                    (timers s)) s).

(** [rideCompleted(ride)]: draws the rating and arms the timer. *)
Definition rideCompleted (ride : nat) : M unit :=
  let* r := readRide ride in
  let duration := (Ride.distance r * 100)%Q in
  let* rnd := Math_random in
  let raiting := (inject_Z (Math_floor (rnd * 5)) + 1)%Q in
  setTimeout ride raiting duration.

(** The arrow function that [rideCompleted] hands to [setTimeout]. *)
Definition rideCompleted_callback (t : Timer) : M unit :=
  let* r := readRide (timer_ride t) in
  let user := Ride.user r in
  let driver := Ride.driver r in
  writeUser "inRide" user (User.set_inRide false) ;;
  writeDriver "isAvailable" driver (Driver.set_isAvailable true) ;;
  writeRide (timer_ride t) (Ride.set_status "completed") ;;
  let* d := readDriver "name" driver in
  let* u := readUser "name" user in
  log [Lit (Driver.name d); Lit " has completed the ride for ";
       Lit (User.name u); Lit "!"] ;;
  callDriver "addRaiting" driver (Driver.addRaiting (timer_raiting t)).

Fixpoint runTimers (ts : list Timer) : M unit :=
  match ts with
  | [] => ret tt
  | t :: ts' => rideCompleted_callback t ;; runTimers ts'
  end.

(** Waiting [d] milliseconds: the timers due by then fire, in order. *)
Definition sleep (d : Q) : M unit :=
  let* s := get in
  let deadline := (clock s + d)%Q in
  let due_now := List.filter (fun t => Qle_bool (due t) deadline) (timers s) in
  let later := List.filter (fun t => negb (Qle_bool (due t) deadline)) (timers s) in
  modify (set_timers later) ;;
  runTimers due_now ;;
  modify (set_clock deadline).

(** The body of the [for await] loop of [processMultipleRides]. *)
Definition processRide (ride : nat) : M unit :=
  let* paymentSuccess := payment ride in
  let* r := readRide ride in
  let user := Ride.user r in
  let driver := Ride.driver r in
  let* d := readDriver "isVIP" driver in
  let* vipOnly :=
    if Driver.isVIP d then
      let* u := readUser "PremiumUser" user in
      ret (negb (truthy (User.get u "PremiumUser")))
    else ret false in
  if vipOnly then
    let* d := readDriver "name" driver in
    let* u := readUser "name" user in
    log [Lit (Driver.name d);
         Lit " is a VIP driver and cannot accept the ride from ";
         Lit (User.name u); Lit "! Ride denied!"]
  else if (paymentSuccess : bool) then
    writeDriver "isAvailable" driver (Driver.set_isAvailable false) ;;
    writeUser "inRide" user (User.set_inRide true) ;;
    writeRide ride (Ride.set_status "active") ;;
    let* d := readDriver "name" driver in
    let* u := readUser "name" user in
    log [Lit (Driver.name d); Lit " has accepted the ride from ";
         Lit (User.name u); Lit "!"] ;;
    callUser "addPoints" user (User.addPoints (Ride.distance r)) ;;
    rideCompleted ride
  else
    let* d := readDriver "name" driver in
    let* u := readUser "name" user in
    log [Lit (Driver.name d); Lit " has denied the ride from ";
         Lit (User.name u); Lit "!"].

(** How often [for (let i = 0; i < numRides; i++)] runs its body. *)
Definition iterations (numRides : Q) : nat := Z.to_nat (Qceiling numRides).

(** [n] turns of generator and loop body: the generator produces a ride,
    its promise resolves 2000 ms later, the body processes the ride. *)
Fixpoint forAwait (n : nat) : M unit :=
  match n with
  | O => ret tt
  | S n' =>
      let* ride := generateRides_body in
      sleep 2000 ;;
      processRide ride ;;
      forAwait n'
  end.

(** [processMultipleRides(numRides)] *)
Definition processMultipleRides (numRides : Q) : M unit :=
  forAwait (iterations numRides).

(** [startApp(numRides)] *)
Definition startApp (net : FetchOutcome) (numRides : JsValue) : M unit :=
  try_catch
    (if negb (String.eqb (typeof numRides) "number") then
       log [Lit "Input should be number!"]
     else
       log [Lit "App started successfully!"] ;;
       fetchDrivers net ;;
       processMultipleRides
         (match numRides with JsNum q => q | _ => 0 end))
    (fun error => log_error "Error starting the app:" (ArgExn error)).

End RideSharingApp.

(** ** Seed data of the file and the runs used below *)

Definition seedDetails (cardNumber : Z) (balance : Q) : PaymentDetails :=
  {| cardNumber := CardNum cardNumber; expirationDate := 111; balance := balance |}.

Definition seed_u1 : User.t :=
  User.new "u1" "Olivia Martinez" (seedDetails 1234567890123456 1000) false 0.

(** [usersData.map(user => new User(...))] *)
Definition users_seed : list User.t :=
  [ seed_u1;
    User.new "u2" "Benjamin Turner" (seedDetails 123456789012345 1000) false 0;
    User.new "u3" "Isabella Davis" (seedDetails 1234567890123456 1000) false 0;
    User.new "u4" "Alexander Wilson" (seedDetails 1234567890123456 1000) false 0;
    User.new "u5" "Mia Robertson" (seedDetails 1234567890123456 1000) false 0;
    User.new "u6" "Ethan Clark" (seedDetails 1234567890123456 50) false 0;
    User.new "u7" "Harper Adams" (seedDetails 1234567890123456 10) false 0;
    User.new "u8" "Lucas Thompson" (seedDetails 1234567890123456 1000) false 0;
    User.new "u9" "Charlotte Lewis" (seedDetails 1234567890123456 500) false 0;
    User.new "u10" "Samuel Harris" (seedDetails 1234567890123456 100) false 0 ].

Definition locations_seed : list string :=
  [ "Location 1"; "Location 2"; "Location 3"; "Location 4"; "Location 5";
    "Location 6"; "Location 7"; "Location 8"; "Location 9"; "Location 10";
    "Location 11"; "Location 12" ].

(** A directory answer with two drivers. *)
Definition two_drivers : FetchOutcome :=
  FetchResponse true 200 (inr [(1%Z, "Leanne Graham"); (2%Z, "Ervin Howell")]).

(** [Math.random()] returns [v] at the calls listed in [at_calls] and 0
    at every other call. *)
Definition entropy_at (at_calls : list nat) (v : Q) : nat -> Q :=
  fun n => if existsb (Nat.eqb n) at_calls then v else 0%Q.

(** The state in which a call leaves the program. *)
Definition after {A : Type} (m : M A) (s : State) : State := snd (m s).

(** The card number is written with exactly [n] decimal digits. *)
Definition all_digits (s : string) : Prop :=
  Forall (fun c => is_digit c = true) (list_ascii_of_string s).

Definition has_digits (n : nat) (c : CardNumber) : Prop :=
  String.length (cardString c) = n /\ all_digits (cardString c).

(** The riders and drivers after a sequence of calls on one object. *)
Definition addPointsAll (eventEmitter : EventEmitter.t) (ps : list Q)
    (u : User.t) : User.t :=
  fold_left (fun u p => fst (User.addPoints p eventEmitter u)) ps u.

Definition addRaitingAll (eventEmitter : EventEmitter.t) (rs : list Q)
    (d : Driver.t) : Driver.t :=
  fold_left (fun d r => fst (Driver.addRaiting r eventEmitter d)) rs d.

(** The listeners of a running controller. *)
Definition listeners0 : EventEmitter.t :=
  RideSharingApp.setupListenersPremium EventEmitter.new.

(** A driver as [fetchDrivers] creates it. *)
Definition fresh_driver : Driver.t := Driver.new 1 "Leanne Graham" 0 true.

(** The two assignments of [processPayment], on the objects. *)
Definition debit (fare : Q) (u : User.t) : User.t :=
  User.set_paymentDetails
    (set_balance (balance (User.paymentDetails u) - fare)%Q (User.paymentDetails u))
    u.

Definition credit (fare : Q) (d : Driver.t) : Driver.t :=
  Driver.set_profit (Driver.profit d + fare)%Q d.

Definition charged (i j : nat) (fare : Q) (s : State) : State :=
  set_drivers (alter (credit fare) j (drivers s))
    (set_users (alter (debit fare) i (users s)) s).

(** The line a VIP driver's refusal writes. *)
Definition vip_denial (d : Driver.t) (u : User.t) : Output :=
  console_log [Lit (Driver.name d);
               Lit " is a VIP driver and cannot accept the ride from ";
               Lit (User.name u); Lit "! Ride denied!"].

(** One of the three lists the guard of [*generateRides] looks at is empty. *)
Definition uninitialized (s : State) : Prop :=
  locations s = [] \/ users s = [] \/ drivers s = [].

(** [startApp] with a number, through its first [n] rides. *)
Definition startApp_rides (net : FetchOutcome) (n : nat) : M unit :=
  log [Lit "App started successfully!"] ;;
  RideSharingApp.fetchDrivers net ;;
  RideSharingApp.forAwait n.

(** The same, up to the moment the loop body receives the next ride: the
    result is that ride. *)
Definition startApp_upTo (net : FetchOutcome) (n : nat) : M nat :=
  startApp_rides net n ;;
  let* ride := RideSharingApp.generateRides_body in
  RideSharingApp.sleep 2000 ;;
  ret ride.

(** The state in which [startApp] rejects its argument. *)
Definition rejected (s : State) : State :=
  set_console (console s ++ [console_log [Lit "Input should be number!"]])%list s.

(** The program as the file starts it, every [Math.random()] being 0. *)
Definition seed_app : State :=
  RideSharingApp.new users_seed locations_seed (fun _ => 0%Q).

(** A rider constructed as [PremiumUser] and one constructed as [User],
    with the card of the seed data. *)
Definition premium_rider (balance : Q) : User.t :=
  PremiumUser.new "p1" "Paula Premium" (seedDetails 1234567890123456 balance) false 0.

Definition standard_rider (balance : Q) : User.t :=
  User.new "s1" "Sam Standard" (seedDetails 1234567890123456 balance) false 0.

Definition one_driver : FetchOutcome :=
  FetchResponse true 200 (inr [(1%Z, "Leanne Graham")]).

(** [startApp(1)] with one rider and one driver; every [Math.random()] is
    0.49, so the ride has distance 50 and fare 100. *)
Definition run_fare_100 (rider : User.t) : State :=
  after (RideSharingApp.startApp one_driver (JsNum 1))
        (RideSharingApp.new [rider] locations_seed (fun _ => 49 # 100)).

(** A driver made VIP by one rating of 2, which leaves the score 5. *)
Definition vip_driver : Driver.t :=
  fst (Driver.addRaiting 2 listeners0 fresh_driver).

(** A controller with one rider and that driver; every [Math.random()] is
    0, so a ride has distance 1 and fare 2. *)
Definition paired_with_VIP (rider : User.t) : State :=
  set_drivers [vip_driver]
    (RideSharingApp.new [rider] locations_seed (fun _ => 0%Q)).

(** The program as the file starts it, with two drivers.  [Math.random()]
    is 0.5 at its calls number 4 and 6 (the distance of the first ride, 51,
    and the rating of its driver, 3) and 0 elsewhere: the first rider
    becomes Premium on the first ride, whose driver becomes VIP when it
    completes, and the fifth ride pairs the two again. *)
Definition premium_meets_VIP : State :=
  RideSharingApp.new users_seed locations_seed (entropy_at [4; 6]%nat (1 # 2)).

(** The same with 0.5 only at call 6: the first ride has distance 1, its
    rider stays Standard, its driver becomes VIP, and the third ride pairs
    the two again. *)
Definition standard_meets_VIP : State :=
  RideSharingApp.new users_seed locations_seed (entropy_at [6]%nat (1 # 2)).

(** One rider of the seed data, two drivers, every [Math.random()] 0. *)
Definition single_rider : State :=
  RideSharingApp.new [seed_u1] locations_seed (fun _ => 0%Q).

(** A property of the state that a call keeps, however the call ends. *)
Definition preserves (I : State -> Prop) {A : Type} (m : M A) : Prop :=
  forall s, I s -> I (snd (m s)).

(** The VIP flag of a driver agrees with the score. *)
Definition vipOK (d : Driver.t) : Prop :=
  Driver.isVIP d = num_ge (Driver.VIPRaiting d) 4.

Definition driversOK (s : State) : Prop := Forall vipOK (drivers s).

(** Every rider who is Premium in [s0] is still there, and Premium, in [s]. *)
Definition premium_kept (s0 s : State) : Prop :=
  forall i u, users s0 !! i = Some u -> User.isPremium u = true ->
    exists u', users s !! i = Some u' /\ User.isPremium u' = true.

(** ** Draws, trips and accounts *)

(** A value that [Math.random()] can return. *)
Definition unit_interval (r : Q) : Prop := (0 <= r)%Q /\ (r < 1)%Q.

(** The next [n] draws of [s] are such values. *)
Definition unit_draws (s : State) (n : nat) : Prop :=
  forall k, (k < n)%nat -> unit_interval (entropy s (drawn s + k)%nat).

(** The ride that [RideFactory.rideRequest] builds from its two draws. *)
Definition requested_ride (pickUp dropOff : option string)
    (user driver : option nat) (r1 r2 : Q) : Ride.t :=
  {| Ride.id := padStart 10 "0" (toString (Math_floor (r2 * 1000000)));
     Ride.pickUp := pickUp; Ride.dropOff := dropOff;
     Ride.fare := ((inject_Z (Math_floor (r1 * 100)) + 1) * 2)%Q;
     Ride.status := "requested";
     Ride.distance := (inject_Z (Math_floor (r1 * 100)) + 1)%Q;
     Ride.user := user; Ride.driver := driver |}.

(** The timer that [rideCompleted] arms for ride [ride] in state [s]. *)
Definition trip_timer (ride : nat) (r : Ride.t) (s : State) : Timer :=
  {| due := (clock s + Ride.distance r * 100)%Q; timer_ride := ride;
     timer_raiting := (inject_Z (Math_floor (entropy s (drawn s) * 5)) + 1)%Q |}.

(** The state in which the loop body leaves the program when rider [u]
    (at [i]) has paid and driver [d] (at [j]) has accepted ride [ride]. *)
Definition accepted (ride i j : nat) (r : Ride.t) (u : User.t) (d : Driver.t)
    (s : State) : State :=
  let up := User.addPoints (Ride.distance r) (eventEmitter s)
              (User.set_inRide true (debit (Ride.fare r) u)) in
  {| users := alter (fun _ => fst up) i (users s);
     locations := locations s;
     drivers := alter (fun _ => Driver.set_isAvailable false (credit (Ride.fare r) d))
                      j (drivers s);
     rides := alter (Ride.set_status "active") ride (rides s);
     eventEmitter := eventEmitter s;
     console :=
       ((console s
         ++ [console_log [Lit (User.name u); Lit " has paid for the ride!"];
             console_log [Lit (Driver.name d); Lit " has accepted the ride from ";
                          Lit (User.name u); Lit "!"]])
        ++ snd up)%list;
     entropy := entropy s;
     drawn := S (drawn s);
     clock := clock s;
     timers := RideSharingApp.insert_timer (trip_timer ride r s) (timers s) |}.

(** The state after the loop body when the payment was refused. *)
Definition payment_denied (u : User.t) (d : Driver.t) (s : State) : State :=
  set_console
    (console s
     ++ [console_log [Lit (User.name u); Lit " failed to pay!"];
         console_log [Lit (Driver.name d); Lit " has denied the ride from ";
                      Lit (User.name u); Lit "!"]])%list s.

(** The state after the callback of timer [t] has run for rider [u] (at
    [i]) and driver [d] (at [j]). *)
Definition completed (t : Timer) (i j : nat) (u : User.t) (d : Driver.t)
    (s : State) : State :=
  let rated := Driver.addRaiting (timer_raiting t) (eventEmitter s)
                 (Driver.set_isAvailable true d) in
  {| users := alter (User.set_inRide false) i (users s);
     locations := locations s;
     drivers := alter (fun _ => fst rated) j (drivers s);
     rides := alter (Ride.set_status "completed") (timer_ride t) (rides s);
     eventEmitter := eventEmitter s;
     console :=
       ((console s
         ++ [console_log [Lit (Driver.name d); Lit " has completed the ride for ";
                          Lit (User.name u); Lit "!"]])
        ++ snd rated)%list;
     entropy := entropy s; drawn := drawn s; clock := clock s;
     timers := timers s |}.

(** The event loop once the program has nothing else to do: every pending
    timer fires, in the order of the deadlines. *)
Definition settle : M unit :=
  let* s := get in
  modify (set_timers []) ;;
  RideSharingApp.runTimers (timers s).

(** An accepted ride whose timer has fired. *)
Definition settled (ride i j : nat) (r : Ride.t) (u : User.t) (d : Driver.t)
    (s : State) : State :=
  completed (trip_timer ride r s) i j
    (fst (User.addPoints (Ride.distance r) (eventEmitter s)
            (User.set_inRide true (debit (Ride.fare r) u))))
    (Driver.set_isAvailable false (credit (Ride.fare r) d))
    (set_timers [] (accepted ride i j r u d s)).

(** The money in the system: the balances of the riders and the profits of
    the drivers. *)
Definition sumQ (l : list Q) : Q := fold_right Qplus 0%Q l.

Definition money (s : State) : Q :=
  (sumQ (map (fun u => balance (User.paymentDetails u)) (users s))
   + sumQ (map Driver.profit (drivers s)))%Q.

Definition conserved (c : Q) (s : State) : Prop := (money s == c)%Q.

(** A property of the state that a call keeps when it returns. *)
Definition ensures (I : State -> Prop) {A : Type} (m : M A) : Prop :=
  forall s, I s -> forall a s', m s = (Normal a, s') -> I s'.

(** What identifies a rider: everything but the balance, the points and
    the two flags. *)
Definition same_rider (u u' : User.t) : Prop :=
  User.class u' = User.class u /\ User.id u' = User.id u /\
  User.name u' = User.name u /\
  cardNumber (User.paymentDetails u') = cardNumber (User.paymentDetails u) /\
  expirationDate (User.paymentDetails u') = expirationDate (User.paymentDetails u).

(** [r'] is [r] up to the status. *)
Definition same_trip (r r' : Ride.t) : Prop :=
  Ride.set_status (Ride.status r) r' = r.

(** [s] continues [s0]: the same locations and listeners, the same riders,
    the rides of [s0] still in their places, the console of [s0] a prefix. *)
Definition continues (s0 s : State) : Prop :=
  locations s = locations s0 /\
  eventEmitter s = eventEmitter s0 /\
  length (users s) = length (users s0) /\
  (forall i u, users s0 !! i = Some u ->
     exists u', users s !! i = Some u' /\ same_rider u u') /\
  (forall k r, rides s0 !! k = Some r ->
     exists r', rides s !! k = Some r' /\ same_trip r r') /\
  console s0 `prefix_of` console s.

(** A controller with the locations of the seed data whose drivers have
    arrived; every [Math.random()] is 0.49. *)
Definition ready (riders : list User.t) (ds : list Driver.t) : State :=
  set_drivers ds (RideSharingApp.new riders locations_seed (fun _ => 49 # 100)).

(** The same after the generator has produced its first ride. *)
Definition booked (riders : list User.t) (ds : list Driver.t) : State :=
  after RideSharingApp.generateRides_body (ready riders ds).

(** That ride when rider and driver are the first of their lists: from
    "Location 6" to "Location 6", distance 50, fare 100. *)
Definition seed_ride : Ride.t :=
  requested_ride (Some "Location 6") (Some "Location 6") (Some 0%nat) (Some 0%nat)
    (49 # 100) (49 # 100).

(** The first ride when no driver is available. *)
Definition seed_ride_no_driver : Ride.t :=
  requested_ride (Some "Location 6") (Some "Location 6") (Some 0%nat) None
    (49 # 100) (49 # 100).

(** A driver in the middle of a trip. *)
Definition busy_driver : Driver.t := Driver.set_isAvailable false fresh_driver.

(** A rider in the middle of a trip. *)
Definition busy_rider : User.t := User.set_inRide true seed_u1.

(** The first rider and the first driver of the seed data during the
    trip of [seed_ride]. *)
Definition riding : State :=
  after (RideSharingApp.processRide 0) (booked [seed_u1] [fresh_driver]).

Definition seed_u1_riding : User.t :=
  fst (User.addPoints 50 listeners0 (User.set_inRide true (debit 100 seed_u1))).

Definition fresh_driver_riding : Driver.t :=
  Driver.set_isAvailable false (credit 100 fresh_driver).

(** The ten riders of the seed data and two drivers. *)
Definition ready_seed : State :=
  ready users_seed [fresh_driver; Driver.new 2 "Ervin Howell" 0 true].

(** * Properties *)

(** ** Payment validation *)

Lemma match_digits_spec n s :
  match_digits n s = true <-> String.length s = n /\ all_digits s.
Proof.
  unfold all_digits. revert s. induction n as [|n IH]; intros [|c s]; simpl.
  - split; [intros _; split; [reflexivity | constructor] | reflexivity].
  - split; [discriminate | intros [H _]; discriminate].
  - split; [discriminate | intros [H _]; discriminate].
  - rewrite andb_true_iff, IH. split.
    + intros [Hc [Hl Ha]]. split; [congruence | by constructor].
    + intros [Hl Ha]. inversion Ha; subst. split; [done | split; [congruence | done]].
Qed.

Lemma regex_exec_spec c : regex_exec c = true <-> has_digits 16 c.
Proof. apply match_digits_spec. Qed.

Lemma validatePayment_iff pd fare :
  PaymentService.validatePayment pd fare = true <->
  has_digits 16 (cardNumber pd)
  /\ (20 < expirationDate pd)%Q /\ (fare <= balance pd)%Q.
Proof.
  unfold PaymentService.validatePayment, num_gt, num_ge.
  destruct (regex_exec (cardNumber pd)) eqn:Hm; simpl.
  - apply regex_exec_spec in Hm.
    destruct (Qle_bool (expirationDate pd) 20) eqn:He; simpl.
    + apply Qle_bool_iff in He. split; [discriminate|].
      intros (_ & Hlt & _). exfalso. lra.
    + destruct (Qle_bool fare (balance pd)) eqn:Hb.
      * apply Qle_bool_iff in Hb. split; [|done].
        intros _. split; [done|]. split; [|done].
        apply Qnot_le_lt. intros H. apply Qle_bool_iff in H. congruence.
      * split; [discriminate|].
        intros (_ & _ & H). apply Qle_bool_iff in H. congruence.
  - split; [discriminate|].
    intros (H & _). apply regex_exec_spec in H. congruence.
Qed.

Lemma validatePayment_false_iff pd fare :
  PaymentService.validatePayment pd fare = false <->
  ~ (has_digits 16 (cardNumber pd)
     /\ (20 < expirationDate pd)%Q /\ (fare <= balance pd)%Q).
Proof.
  rewrite <- validatePayment_iff.
  destruct (PaymentService.validatePayment pd fare); split; done.
Qed.

(** C6. [validatePayment] answers [true] exactly when the card number is
    written with exactly 16 digits, the expiration date exceeds 20 and the
    balance is at least the fare.  In particular a card number of 15
    digits is rejected whatever the balance, 16 digits with a valid
    expiration date and a balance equal to the fare are accepted, and a
    balance one unit below the fare is rejected. *)
Theorem validatePayment_exactly :
  (forall pd fare,
     PaymentService.validatePayment pd fare = true <->
     has_digits 16 (cardNumber pd)
     /\ (20 < expirationDate pd)%Q /\ (fare <= balance pd)%Q)
  /\ (forall pd fare,
       has_digits 15 (cardNumber pd) ->
       PaymentService.validatePayment pd fare = false)
  /\ (forall pd fare,
       has_digits 16 (cardNumber pd) -> (20 < expirationDate pd)%Q ->
       (balance pd == fare)%Q ->
       PaymentService.validatePayment pd fare = true)
  /\ (forall pd fare,
       (balance pd == fare - 1)%Q ->
       PaymentService.validatePayment pd fare = false).
Proof.
  split; [exact validatePayment_iff|]. split; [|split].
  - intros pd fare [Hl _]. apply validatePayment_false_iff.
    intros ([Hl' _] & _). rewrite Hl in Hl'. discriminate.
  - intros pd fare Hd He Hb. apply validatePayment_iff.
    split; [done|]. split; [done|]. rewrite Hb. apply Qle_refl.
  - intros pd fare Hb. apply validatePayment_false_iff.
    intros (_ & _ & H). rewrite Hb in H. lra.
Qed.

Lemma seed_card_16 : has_digits 16 (CardNum 1234567890123456).
Proof. apply regex_exec_spec. reflexivity. Qed.

Lemma seed_card_15 : has_digits 15 (CardNum 123456789012345).
Proof. apply match_digits_spec. reflexivity. Qed.

Lemma validatePayment_exactly_witness :
  PaymentService.validatePayment (seedDetails 123456789012345 1000) 100 = false
  /\ PaymentService.validatePayment (seedDetails 1234567890123456 100) 100 = true
  /\ PaymentService.validatePayment (seedDetails 1234567890123456 99) 100 = false.
Proof.
  destruct validatePayment_exactly as (_ & H15 & Heq & Hbelow).
  split; [|split].
  - apply H15. exact seed_card_15.
  - apply Heq; [exact seed_card_16 | reflexivity | reflexivity].
  - apply Hbelow. reflexivity.
Defined.

(** ** Driver ratings *)

Lemma num_ge_iff a b : num_ge a b = true <-> (b <= a)%Q.
Proof. apply Qle_bool_iff. Qed.

Lemma num_lt_iff a b : num_lt a b = true <-> (a < b)%Q.
Proof.
  unfold num_lt. rewrite negb_true_iff. split.
  - intros H. apply Qnot_le_lt. intros Hle. apply Qle_bool_iff in Hle. congruence.
  - intros H. destruct (Qle_bool b a) eqn:E; [|done].
    apply Qle_bool_iff in E. lra.
Qed.

Lemma num_eq_iff a b : num_eq a b = true <-> (a == b)%Q.
Proof. apply Qeq_bool_iff. Qed.

Lemma checkForUpgrade_isVIP em d :
  Driver.isVIP (fst (Driver.checkForUpgrade em d)) = num_ge (Driver.VIPRaiting d) 4.
Proof.
  unfold Driver.checkForUpgrade, num_lt. fold (num_ge (Driver.VIPRaiting d) 4).
  destruct (num_ge (Driver.VIPRaiting d) 4), (Driver.isVIP d) eqn:E;
    simpl; congruence.
Qed.

Lemma checkForUpgrade_VIPRaiting em d :
  Driver.VIPRaiting (fst (Driver.checkForUpgrade em d)) = Driver.VIPRaiting d.
Proof.
  unfold Driver.checkForUpgrade.
  destruct (num_ge _ _ && _); [reflexivity|].
  destruct (num_lt _ _ && _); reflexivity.
Qed.

Lemma addRaiting_VIPRaiting em d r :
  Driver.VIPRaiting (fst (Driver.addRaiting r em d)) =
  if num_eq (Driver.VIPRaiting d) 0 then (r + (r + r / 2))%Q
  else (Driver.VIPRaiting d + (Driver.VIPRaiting d + r / 2))%Q.
Proof.
  unfold Driver.addRaiting. rewrite checkForUpgrade_VIPRaiting.
  destruct (num_eq (Driver.VIPRaiting d) 0); reflexivity.
Qed.

Lemma addRaiting_isVIP em d r :
  Driver.isVIP (fst (Driver.addRaiting r em d)) =
  num_ge (Driver.VIPRaiting (fst (Driver.addRaiting r em d))) 4.
Proof.
  unfold Driver.addRaiting. rewrite checkForUpgrade_VIPRaiting.
  apply checkForUpgrade_isVIP.
Qed.

Lemma addRaitingAll_snoc em rs r d :
  addRaitingAll em (rs ++ [r]) d =
  fst (Driver.addRaiting r em (addRaitingAll em rs d)).
Proof. unfold addRaitingAll. by rewrite fold_left_app. Qed.

(** C4, as the claim states it, fails: the first rating 3 of a fresh driver
    leaves the score 7.5, not 3, and the ratings 3, 4, 2 leave the scores
    7.5, 17 and 35, not 3, 8 and 17. *)
Lemma addRaiting_first_counterexample :
  ~ (Driver.VIPRaiting (addRaitingAll listeners0 [3%Q] fresh_driver) == 3)%Q
  /\ ~ (Driver.VIPRaiting (addRaitingAll listeners0 [3%Q; 4%Q] fresh_driver) == 8)%Q
  /\ ~ (Driver.VIPRaiting (addRaitingAll listeners0 [3%Q; 4%Q; 2%Q] fresh_driver) == 17)%Q.
Proof. split; [|split]; vm_compute; discriminate. Qed.

(** C4, amended.  [addRaiting] has no [else]: on a driver whose score is 0
    the call stores the rating and then applies the same update as every
    other call, so the first rating [r] leaves [r + r + r/2]; on a driver
    whose score is not 0 a rating [r] leaves [score + score + r/2].  For a
    fresh driver the ratings 3, 4, 2 leave the scores 7.5, 17 and 35. *)
Theorem addRaiting_recurrence :
  (forall em d r,
     (Driver.VIPRaiting d == 0)%Q ->
     (Driver.VIPRaiting (fst (Driver.addRaiting r em d)) == r + r + r / 2)%Q)
  /\ (forall em d r,
       ~ (Driver.VIPRaiting d == 0)%Q ->
       (Driver.VIPRaiting (fst (Driver.addRaiting r em d))
        == Driver.VIPRaiting d + Driver.VIPRaiting d + r / 2)%Q)
  /\ (Driver.VIPRaiting fresh_driver == 0)%Q
  /\ (Driver.VIPRaiting (addRaitingAll listeners0 [3%Q] fresh_driver) == 15 # 2)%Q
  /\ (Driver.VIPRaiting (addRaitingAll listeners0 [3%Q; 4%Q] fresh_driver) == 17)%Q
  /\ (Driver.VIPRaiting (addRaitingAll listeners0 [3%Q; 4%Q; 2%Q] fresh_driver) == 35)%Q.
Proof.
  split; [|split].
  - intros em d r H. rewrite addRaiting_VIPRaiting.
    apply num_eq_iff in H. rewrite H. ring.
  - intros em d r H. rewrite addRaiting_VIPRaiting.
    destruct (num_eq (Driver.VIPRaiting d) 0) eqn:E.
    + apply num_eq_iff in E. contradiction.
    + ring.
  - repeat split.
Qed.

Lemma addRaiting_recurrence_witness :
  (Driver.VIPRaiting (fst (Driver.addRaiting 3 listeners0 fresh_driver))
   == 3 + 3 + 3 / 2)%Q
  /\ (Driver.VIPRaiting
        (fst (Driver.addRaiting 4 listeners0
                (addRaitingAll listeners0 [3%Q] fresh_driver)))
      == (15 # 2) + (15 # 2) + 4 / 2)%Q.
Proof.
  destruct addRaiting_recurrence as (Hfirst & Hnext & _).
  split.
  - apply Hfirst. reflexivity.
  - apply Hnext. vm_compute. discriminate.
Defined.

(** ** Rider points *)

Lemma addPoints_premiumPoints em u p :
  User.premiumPoints (fst (User.addPoints p em u)) = (User.premiumPoints u + p)%Q.
Proof.
  unfold User.addPoints, User.checkForUpgrade. simpl.
  destruct (num_ge _ _ && _); reflexivity.
Qed.

Lemma addPoints_isPremium em u p :
  User.isPremium (fst (User.addPoints p em u)) =
  User.isPremium u || num_ge (User.premiumPoints u + p) 50.
Proof.
  destruct u as [c i n pd r pts prem].
  unfold User.addPoints, User.checkForUpgrade. simpl.
  destruct (num_ge _ _), prem; reflexivity.
Qed.

Lemma addPointsAll_snoc em ps p u :
  addPointsAll em (ps ++ [p]) u = fst (User.addPoints p em (addPointsAll em ps u)).
Proof. unfold addPointsAll. by rewrite fold_left_app. Qed.

Lemma addPointsAll_take_S em ps k p u :
  ps !! k = Some p ->
  addPointsAll em (take (S k) ps) u =
  fst (User.addPoints p em (addPointsAll em (take k ps) u)).
Proof. intros H. rewrite (take_S_r _ _ _ H). apply addPointsAll_snoc. Qed.

Lemma addPointsAll_take_ge em ps u k :
  addPointsAll em (take k ps) u = addPointsAll em (take (k `min` length ps) ps) u.
Proof.
  destruct (decide (k <= length ps)%nat) as [H|H].
  - by rewrite Nat.min_l.
  - rewrite Nat.min_r by lia. rewrite !take_ge by lia. reflexivity.
Qed.

Lemma addPointsAll_isPremium em ps u k :
  (k <= length ps)%nat ->
  User.isPremium (addPointsAll em (take k ps) u) = true <->
  User.isPremium u = true \/
  exists j, (1 <= j <= k)%nat /\
            (50 <= User.premiumPoints (addPointsAll em (take j ps) u))%Q.
Proof.
  induction k as [|k IH]; intros Hk.
  - rewrite take_0. simpl. split; [by left|].
    intros [H|(j & Hj & _)]; [done | lia].
  - destruct (lookup_lt_is_Some_2 ps k) as [p Hp]; [lia|].
    rewrite (addPointsAll_take_S _ _ _ _ _ Hp), addPoints_isPremium.
    rewrite orb_true_iff, IH by lia. rewrite num_ge_iff.
    rewrite <- addPoints_premiumPoints with (em := em).
    rewrite <- (addPointsAll_take_S _ _ _ _ _ Hp).
    split.
    + intros [[H|(j & Hj & H)]|H];
        [by left | right; exists j; split; [lia|done] |].
      right. exists (S k). split; [lia|done].
    + intros [H|(j & Hj & H)]; [by left; left|].
      destruct (decide (j = S k)) as [->|Hne]; [by right|].
      left; right. exists j. split; [lia|done].
Qed.

(** ** Charging *)

Lemma alter_ext_at {A} (f g : A -> A) i (l : list A) x :
  l !! i = Some x -> f x = g x -> alter f i l = alter g i l.
Proof.
  intros Hx Hfg. apply list_eq. intros k. rewrite !list_lookup_alter.
  destruct (decide (i = k)) as [->|]; [|done]. rewrite Hx. simpl. by rewrite Hfg.
Qed.

Lemma processPayment_run s i j u d fare :
  users s !! i = Some u -> drivers s !! j = Some d ->
  PaymentService.processPayment (Some i) fare (Some j) s =
  (Normal tt, charged i j fare s).
Proof.
  intros Hu Hd.
  unfold PaymentService.processPayment, readUser, writeUser, readDriver,
    writeDriver, bind, get, modify, ret, throw, charged.
  simpl. rewrite Hu. simpl. rewrite Hu. simpl. rewrite Hd. simpl. rewrite Hd. simpl.
  f_equal. f_equal.
  - by apply alter_ext_at with d.
  - f_equal. by apply alter_ext_at with u.
Qed.

(** C10. On a rider and a driver of the controller, [processPayment]
    returns normally; afterwards the rider's balance is the old balance
    minus the fare and the driver's profit the old profit plus the fare,
    and nothing else has changed: the rider's other fields (card number,
    expiration date, inRide, points, tier, id, name), the driver's other
    fields (availability, score, tier, id, name), every other rider and
    driver, the ride registry, the locations, the listeners, the console,
    the timers, the clock and the random sequence. *)
Theorem processPayment_frame s i j u d fare :
  users s !! i = Some u -> drivers s !! j = Some d ->
  let s' := after (PaymentService.processPayment (Some i) fare (Some j)) s in
  fst (PaymentService.processPayment (Some i) fare (Some j) s) = Normal tt
  /\ (exists u', users s' !! i = Some u'
       /\ balance (User.paymentDetails u') = (balance (User.paymentDetails u) - fare)%Q
       /\ cardNumber (User.paymentDetails u') = cardNumber (User.paymentDetails u)
       /\ expirationDate (User.paymentDetails u') = expirationDate (User.paymentDetails u)
       /\ User.inRide u' = User.inRide u
       /\ User.premiumPoints u' = User.premiumPoints u
       /\ User.isPremium u' = User.isPremium u
       /\ User.id u' = User.id u /\ User.name u' = User.name u)
  /\ (exists d', drivers s' !! j = Some d'
       /\ Driver.profit d' = (Driver.profit d + fare)%Q
       /\ Driver.isAvailable d' = Driver.isAvailable d
       /\ Driver.VIPRaiting d' = Driver.VIPRaiting d
       /\ Driver.isVIP d' = Driver.isVIP d
       /\ Driver.id d' = Driver.id d /\ Driver.name d' = Driver.name d)
  /\ (forall k, k <> i -> users s' !! k = users s !! k)
  /\ (forall k, k <> j -> drivers s' !! k = drivers s !! k)
  /\ length (users s') = length (users s)
  /\ length (drivers s') = length (drivers s)
  /\ rides s' = rides s
  /\ locations s' = locations s
  /\ eventEmitter s' = eventEmitter s
  /\ console s' = console s
  /\ timers s' = timers s
  /\ clock s' = clock s
  /\ entropy s' = entropy s /\ drawn s' = drawn s.
Proof.
  intros Hu Hd. unfold after. cbv zeta.
  rewrite (processPayment_run s i j u d fare Hu Hd). unfold charged. simpl.
  split; [reflexivity|]. split; [|split].
  - exists (debit fare u). rewrite list_lookup_alter_eq, Hu. by repeat split.
  - exists (credit fare d). rewrite list_lookup_alter_eq, Hd. by repeat split.
  - split; [intros k Hk; by apply list_lookup_alter_ne|].
    split; [intros k Hk; by apply list_lookup_alter_ne|].
    rewrite !length_alter. by repeat split.
Qed.

Lemma processPayment_frame_witness :
  let s := set_drivers [fresh_driver]
             (RideSharingApp.new users_seed locations_seed (fun _ => 0%Q)) in
  let s' := after (PaymentService.processPayment (Some 0%nat) 100 (Some 0%nat)) s in
  (balance ∘ User.paymentDetails <$> users s' !! 0%nat) = Some 900%Q
  /\ (Driver.profit <$> drivers s' !! 0%nat) = Some 100%Q
  /\ users s' !! 1%nat = users s !! 1%nat
  /\ rides s' = rides s.
Proof.
  cbv zeta.
  destruct (processPayment_frame
              (set_drivers [fresh_driver]
                 (RideSharingApp.new users_seed locations_seed (fun _ => 0%Q)))
              0 0 seed_u1 fresh_driver 100 eq_refl eq_refl)
    as (_ & (u' & Hu' & Hb & _) & (d' & Hd' & Hp & _) & Hother & _ & _ & _ & Hrides & _).
  split; [|split; [|split]].
  - rewrite Hu'. simpl. rewrite Hb. reflexivity.
  - rewrite Hd'. simpl. rewrite Hp. reflexivity.
  - apply Hother. discriminate.
  - exact Hrides.
Defined.

Lemma payment_run s ride r i j u d :
  rides s !! ride = Some r -> Ride.user r = Some i -> Ride.driver r = Some j ->
  users s !! i = Some u -> drivers s !! j = Some d ->
  RideSharingApp.payment ride s =
  if PaymentService.validatePayment (User.paymentDetails u) (Ride.fare r)
  then (Normal true,
        set_console
          (console s ++ [console_log [Lit (User.name u); Lit " has paid for the ride!"]])
          (charged i j (Ride.fare r) s))
  else (Normal false,
        set_console
          (console s ++ [console_log [Lit (User.name u); Lit " failed to pay!"]]) s).
Proof.
  intros Hr Hi Hj Hu Hd.
  unfold RideSharingApp.payment, readRide. unfold bind at 1. unfold get at 1.
  unfold bind at 1. rewrite Hr. unfold ret at 1. rewrite Hi, Hj.
  unfold readUser at 1. unfold bind at 1, get at 1, bind at 1. simpl. rewrite Hu.
  unfold ret at 1.
  destruct (PaymentService.validatePayment _ _).
  - unfold bind at 1. rewrite (processPayment_run s i j u d _ Hu Hd).
    unfold readUser, bind, get, log, modify, ret. simpl.
    rewrite list_lookup_alter_eq, Hu. simpl. reflexivity.
  - unfold readUser, bind, get, log, modify, ret. simpl. rewrite Hu. reflexivity.
Qed.

(** Whatever the rider's tier, a VIP driver refuses: the loop body leaves
    the state of [payment] and adds the refusal to the console. *)
Lemma processRide_VIP s ride r i j u d :
  rides s !! ride = Some r -> Ride.user r = Some i -> Ride.driver r = Some j ->
  users s !! i = Some u -> drivers s !! j = Some d ->
  Driver.isVIP d = true ->
  RideSharingApp.processRide ride s =
  (Normal tt,
   let s1 := after (RideSharingApp.payment ride) s in
   set_console (console s1 ++ [vip_denial d u]) s1).
Proof.
  intros Hr Hi Hj Hu Hd Hvip.
  unfold RideSharingApp.processRide, after. unfold bind at 1.
  rewrite (payment_run s ride r i j u d Hr Hi Hj Hu Hd).
  destruct (PaymentService.validatePayment _ _);
    unfold readRide, readDriver, readUser, bind, get, log, modify, ret, charged;
    repeat (simpl; first [ rewrite list_lookup_alter_eq | rewrite Hr | rewrite Hi
                         | rewrite Hj | rewrite Hu | rewrite Hd | rewrite Hvip ]);
    reflexivity.
Qed.

(** Closed facts about runs are settled by evaluation. *)
Ltac by_evaluation :=
  cbv zeta;
  repeat match goal with |- _ /\ _ => split end;
  vm_compute; reflexivity.

(** ** The Premium discount *)

(** [payment] passes [ride.fare] to validation and to charging whatever the
    rider's tier: the charge of a valid payment is the full fare. *)
Lemma payment_charges_fare s ride r i j u d :
  rides s !! ride = Some r -> Ride.user r = Some i -> Ride.driver r = Some j ->
  users s !! i = Some u -> drivers s !! j = Some d ->
  PaymentService.validatePayment (User.paymentDetails u) (Ride.fare r) = true ->
  (balance ∘ User.paymentDetails <$> users (after (RideSharingApp.payment ride) s) !! i)
  = Some (balance (User.paymentDetails u) - Ride.fare r)%Q.
Proof.
  intros Hr Hi Hj Hu Hd Hv. unfold after.
  rewrite (payment_run s ride r i j u d Hr Hi Hj Hu Hd), Hv. simpl.
  rewrite list_lookup_alter_eq, Hu. reflexivity.
Qed.

(** C1, on the code: a rider constructed as [PremiumUser] with balance
    1000 who takes a ride of fare 100 is left with 900 and the driver with
    100, as a Standard rider is; and with balance 95, which covers 90 but
    not 100, validation fails and the ride stays [requested].
    [getDiscount] returns 0.1 and is called nowhere. *)
Theorem payment_applies_no_discount :
  (Ride.fare <$> rides (run_fare_100 (premium_rider 1000)) !! 0%nat) = Some 100%Q
  /\ (User.isPremium <$> users (run_fare_100 (premium_rider 1000)) !! 0%nat) = Some true
  /\ (balance ∘ User.paymentDetails
        <$> users (run_fare_100 (premium_rider 1000)) !! 0%nat) = Some 900%Q
  /\ (Driver.profit <$> drivers (run_fare_100 (premium_rider 1000)) !! 0%nat) = Some 100%Q
  /\ (Ride.status <$> rides (run_fare_100 (premium_rider 1000)) !! 0%nat) = Some "active"
  /\ (balance ∘ User.paymentDetails
        <$> users (run_fare_100 (premium_rider 95)) !! 0%nat) = Some 95%Q
  /\ (Ride.status <$> rides (run_fare_100 (premium_rider 95)) !! 0%nat) = Some "requested"
  /\ (balance ∘ User.paymentDetails
        <$> users (run_fare_100 (standard_rider 1000)) !! 0%nat) = Some 900%Q
  /\ PremiumUser.getDiscount (premium_rider 1000) = 1 # 10.
Proof. by_evaluation. Qed.

(** ** VIP drivers and Premium riders *)

(** No rider has a property [PremiumUser]: [!user.PremiumUser] is true for
    Premium riders too. *)
Lemma PremiumUser_property_undefined u :
  User.get u "PremiumUser" = JsUndefined.
Proof. reflexivity. Qed.

(** C2, on the code: the loop body tests [driver.isVIP && !user.PremiumUser],
    and [user.PremiumUser] is undefined for every rider.  A batch of one
    ride that pairs a rider constructed Premium, whose payment is valid,
    with a VIP driver leaves the ride [requested] and writes the refusal.
    So does the fifth ride of the run [premium_meets_VIP] of [startApp(5)],
    which pairs a rider who became Premium on the first ride with the
    driver who became VIP when it completed. *)
Theorem VIP_driver_refuses_premium_rider :
  (forall u, truthy (User.get u "PremiumUser") = false)
  /\ Driver.isVIP vip_driver = true
  /\ User.isPremium (premium_rider 1000) = true
  /\ PaymentService.validatePayment (User.paymentDetails (premium_rider 1000)) 2 = true
  /\ (let s' := after (RideSharingApp.processMultipleRides 1)
                     (paired_with_VIP (premium_rider 1000)) in
      fst (RideSharingApp.processMultipleRides 1 (paired_with_VIP (premium_rider 1000)))
      = Normal tt
      /\ (Ride.fare <$> rides s' !! 0%nat) = Some 2%Q
      /\ (Ride.status <$> rides s' !! 0%nat) = Some "requested"
      /\ (User.inRide <$> users s' !! 0%nat) = Some false
      /\ console s' =
           [console_log [Lit "Paula Premium"; Lit " has requested a ride from ";
                         Lit "Location 1"; Lit " to "; Lit "Location 1"; Lit "!"];
            console_log [Lit "Paula Premium"; Lit " has paid for the ride!"];
            vip_denial vip_driver (premium_rider 1000)])
  /\ fst (startApp_upTo two_drivers 4 premium_meets_VIP) = Normal 4%nat
  /\ let before := after (startApp_upTo two_drivers 4) premium_meets_VIP in
     let s' := after (RideSharingApp.processRide 4) before in
     (rides before !! 4%nat ≫= Ride.user) = Some 0%nat
     /\ (rides before !! 4%nat ≫= Ride.driver) = Some 0%nat
     /\ (Ride.fare <$> rides before !! 4%nat) = Some 2%Q
     /\ (User.isPremium <$> users before !! 0%nat) = Some true
     /\ (Driver.isVIP <$> drivers before !! 0%nat) = Some true
     /\ ((fun u => PaymentService.validatePayment (User.paymentDetails u) 2)
           <$> users before !! 0%nat) = Some true
     /\ fst (RideSharingApp.processRide 4 before) = Normal tt
     /\ (Ride.status <$> rides s' !! 4%nat) = Some "requested"
     /\ (User.inRide <$> users s' !! 0%nat) = Some false
     /\ (Driver.isAvailable <$> drivers s' !! 0%nat) = Some true
     /\ last (console s') =
          Some (console_log
                  [Lit "Leanne Graham";
                   Lit " is a VIP driver and cannot accept the ride from ";
                   Lit "Olivia Martinez"; Lit "! Ride denied!"])
     /\ after (RideSharingApp.startApp two_drivers (JsNum 5)) premium_meets_VIP = s'.
Proof.
  split; [intros u; reflexivity|]. by_evaluation.
Qed.

(** C3, on the code: the loop body calls [payment] before it looks at the
    tiers.  A batch of one ride that pairs a Standard rider, whose payment
    is valid, with a VIP driver refuses the ride and leaves the busy flags
    alone, and it has moved the fare 2 from the rider's balance to the
    driver's profit.  So does the third ride of the run
    [standard_meets_VIP] of [startApp(3)]. *)
Theorem VIP_refusal_keeps_the_fare :
  Driver.isVIP vip_driver = true
  /\ User.isPremium (standard_rider 1000) = false
  /\ (let s := paired_with_VIP (standard_rider 1000) in
      let s' := after (RideSharingApp.processMultipleRides 1) s in
      fst (RideSharingApp.processMultipleRides 1 s) = Normal tt
      /\ (Ride.fare <$> rides s' !! 0%nat) = Some 2%Q
      /\ (Ride.status <$> rides s' !! 0%nat) = Some "requested"
      /\ (balance ∘ User.paymentDetails <$> users s !! 0%nat) = Some 1000%Q
      /\ (balance ∘ User.paymentDetails <$> users s' !! 0%nat) = Some 998%Q
      /\ (Driver.profit <$> drivers s !! 0%nat) = Some 0%Q
      /\ (Driver.profit <$> drivers s' !! 0%nat) = Some 2%Q
      /\ (User.inRide <$> users s !! 0%nat) = Some false
      /\ (User.inRide <$> users s' !! 0%nat) = Some false
      /\ (Driver.isAvailable <$> drivers s !! 0%nat) = Some true
      /\ (Driver.isAvailable <$> drivers s' !! 0%nat) = Some true
      /\ console s' =
           [console_log [Lit "Sam Standard"; Lit " has requested a ride from ";
                         Lit "Location 1"; Lit " to "; Lit "Location 1"; Lit "!"];
            console_log [Lit "Sam Standard"; Lit " has paid for the ride!"];
            vip_denial vip_driver (standard_rider 1000)])
  /\ fst (startApp_upTo two_drivers 2 standard_meets_VIP) = Normal 2%nat
  /\ let before := after (startApp_upTo two_drivers 2) standard_meets_VIP in
     let s' := after (RideSharingApp.processRide 2) before in
     (rides before !! 2%nat ≫= Ride.user) = Some 0%nat
     /\ (rides before !! 2%nat ≫= Ride.driver) = Some 0%nat
     /\ (Ride.fare <$> rides before !! 2%nat) = Some 2%Q
     /\ (User.isPremium <$> users before !! 0%nat) = Some false
     /\ (Driver.isVIP <$> drivers before !! 0%nat) = Some true
     /\ (balance ∘ User.paymentDetails <$> users before !! 0%nat) = Some 998%Q
     /\ (Driver.profit <$> drivers before !! 0%nat) = Some 2%Q
     /\ (User.inRide <$> users before !! 0%nat) = Some false
     /\ (Driver.isAvailable <$> drivers before !! 0%nat) = Some true
     /\ fst (RideSharingApp.processRide 2 before) = Normal tt
     /\ (balance ∘ User.paymentDetails <$> users s' !! 0%nat) = Some 996%Q
     /\ (Driver.profit <$> drivers s' !! 0%nat) = Some 4%Q
     /\ (User.inRide <$> users s' !! 0%nat) = Some false
     /\ (Driver.isAvailable <$> drivers s' !! 0%nat) = Some true
     /\ (Ride.status <$> rides s' !! 2%nat) = Some "requested"
     /\ last (console s') =
          Some (console_log
                  [Lit "Leanne Graham";
                   Lit " is a VIP driver and cannot accept the ride from ";
                   Lit "Olivia Martinez"; Lit "! Ride denied!"])
     /\ after (RideSharingApp.startApp two_drivers (JsNum 3)) standard_meets_VIP = s'.
Proof.
  by_evaluation.
Qed.

(** ** The guard of the generator *)

Lemma bind_Normal {A B} (m : M A) (k : A -> M B) s a s' :
  m s = (Normal a, s') -> bind m k s = k a s'.
Proof. intros H. unfold bind. by rewrite H. Qed.

Lemma guard_spec s :
  (length (locations s) =? 0)%nat || (length (users s) =? 0)%nat
  || (length (drivers s) =? 0)%nat = true <-> uninitialized s.
Proof.
  unfold uninitialized. rewrite !orb_true_iff, !Nat.eqb_eq.
  rewrite !length_zero_iff_nil. tauto.
Qed.

Lemma generateRides_body_uninitialized s :
  uninitialized s -> RideSharingApp.generateRides_body s = (Throw initError, s).
Proof.
  intros H. apply guard_spec in H.
  unfold RideSharingApp.generateRides_body, bind, get. rewrite H. reflexivity.
Qed.

Lemma generateRides_body_initError s :
  fst (RideSharingApp.generateRides_body s) = Throw initError -> uninitialized s.
Proof.
  intros H. apply guard_spec.
  destruct (_ || _ || _) eqn:G in |- *; [reflexivity|]. exfalso. revert H.
  unfold RideSharingApp.generateRides_body. unfold bind at 1, get at 1.
  rewrite G.
  unfold RideSharingApp.randomIndexMethod, RideFactory.rideRequest, readUser,
    Math_random, bind, get, modify, log, ret, throw. simpl.
  destruct (_ ≫= _); simpl; discriminate.
Qed.

(** The loop test [i < numRides] holds for exactly [iterations numRides]
    values of the counter. *)
Lemma iterations_spec q (i : nat) :
  (inject_Z (Z.of_nat i) < q)%Q <-> (i < RideSharingApp.iterations q)%nat.
Proof.
  unfold RideSharingApp.iterations. split.
  - intros H. assert (Hc := Qle_ceiling q).
    assert (Hlt : (inject_Z (Z.of_nat i) < inject_Z (Qceiling q))%Q) by lra.
    rewrite <- Zlt_Qlt in Hlt. lia.
  - intros H. assert (Hlt : (Z.of_nat i <= Qceiling q - 1)%Z) by lia.
    rewrite Zle_Qle in Hlt. assert (Hc := Qceiling_lt q). lra.
Qed.

Lemma iterations_pos q : (0 < q)%Q -> exists n, RideSharingApp.iterations q = S n.
Proof.
  intros Hq. assert (H := proj1 (iterations_spec q 0) Hq).
  exists (RideSharingApp.iterations q - 1)%nat. lia.
Qed.

Lemma iterations_nonpos q : (q <= 0)%Q -> RideSharingApp.iterations q = 0%nat.
Proof.
  intros Hq. destruct (RideSharingApp.iterations q) eqn:E; [reflexivity|].
  assert (H : (inject_Z (Z.of_nat 0) < q)%Q) by (apply iterations_spec; lia).
  change (inject_Z (Z.of_nat 0)) with 0%Q in H. lra.
Qed.

Lemma forAwait_uninitialized s n :
  uninitialized s -> RideSharingApp.forAwait (S n) s = (Throw initError, s).
Proof.
  intros H. simpl. unfold bind at 1.
  by rewrite generateRides_body_uninitialized.
Qed.

(** C5.  The guard of [*generateRides] tests the three lists, not the
    pools filtered from them, and nothing else in the program tests the
    pools: an empty pool is not met with the initialization error.
    - Riders.  In the run of [startApp(2)] for [single_rider] the only
      rider is in a ride when the second ride is about to be generated:
      the list of riders is not empty, the pool of riders not in a ride
      is.  The guard passes, a ride without rider is pushed on the
      registry, the generator fails on [user.name] with a TypeError, and
      that is what [startApp] reports.
    - Drivers.  In the run of [startApp(2)] for two riders and one driver,
      every [Math.random()] being 0.49 (fare 100), the driver is on the
      first ride when the second is about to be generated: the list of
      drivers is not empty, the pool of available drivers is.  The
      generator returns a ride without driver, the second rider pays the
      fare and [driver.profit] fails with a TypeError: her balance is 900,
      the driver has the 100 of the first ride only, the ride stays
      "requested", and [startApp] reports the TypeError. *)
Theorem generateRides_guard_misses_empty_pools :
  (let s := after (startApp_rides two_drivers 1) single_rider in
   length (users s) = 1%nat
   /\ RideSharingApp.users_not_inRide (users s) = []
   /\ fst (RideSharingApp.generateRides_body s) = Throw (cannot_read "name")
   /\ length (rides s) = 1%nat
   /\ length (rides (after RideSharingApp.generateRides_body s)) = 2%nat
   /\ (rides (after RideSharingApp.generateRides_body s) !! 1%nat ≫= Ride.user) = None
   /\ last (console (after (RideSharingApp.startApp two_drivers (JsNum 2)) single_rider))
      = Some (console_error "Error starting the app:" (ArgExn (cannot_read "name"))))
  /\
  (let s0 := RideSharingApp.new [seed_u1; standard_rider 1000] locations_seed
               (fun _ => 49 # 100) in
   let s := after (startApp_rides one_driver 1) s0 in
   let s' := after (RideSharingApp.startApp one_driver (JsNum 2)) s0 in
   length (drivers s) = 1%nat
   /\ RideSharingApp.drivers_isAvailable (drivers s) = []
   /\ fst (RideSharingApp.generateRides_body s) = Normal 1%nat
   /\ (rides (after RideSharingApp.generateRides_body s) !! 1%nat ≫= Ride.user)
      = Some 1%nat
   /\ (rides (after RideSharingApp.generateRides_body s) !! 1%nat ≫= Ride.driver)
      = None
   /\ (balance ∘ User.paymentDetails <$> users s !! 1%nat) = Some 1000%Q
   /\ (balance ∘ User.paymentDetails <$> users s' !! 1%nat) = Some 900%Q
   /\ (Driver.profit <$> drivers s !! 0%nat) = Some 100%Q
   /\ (Driver.profit <$> drivers s' !! 0%nat) = Some 100%Q
   /\ (Ride.status <$> rides s' !! 1%nat) = Some "requested"
   /\ last (console s')
      = Some (console_error "Error starting the app:" (ArgExn (cannot_read "profit")))).
Proof. by_evaluation. Qed.

(** What the guard does do.  Whenever a ride is about to be generated and
    the list of locations, of riders or of drivers is empty, the
    generator throws the initialization error and changes nothing; it
    throws that error in no other state; the batch ends there, whatever
    number of rides remains, without a further ride; and [startApp] on a
    directory that cannot be reached reports the error for every positive
    count, with no ride registered. *)
Lemma generateRides_guard :
  (forall s, uninitialized s ->
     RideSharingApp.generateRides_body s = (Throw initError, s))
  /\ (forall s, fst (RideSharingApp.generateRides_body s) = Throw initError ->
        uninitialized s)
  /\ (forall s n, uninitialized s ->
        RideSharingApp.forAwait (S n) s = (Throw initError, s))
  /\ (forall s numRides, (0 < numRides)%Q -> uninitialized s ->
        RideSharingApp.processMultipleRides numRides s = (Throw initError, s))
  /\ (forall us locs rnd e numRides, (0 < numRides)%Q ->
        RideSharingApp.startApp (FetchRejected e) (JsNum numRides)
          (RideSharingApp.new us locs rnd) =
        (Normal tt,
         set_console
           [console_log [Lit "App started successfully!"];
            console_error "Error fetching drivers: " (ArgMessage (message e));
            console_error "Error starting the app:" (ArgExn initError)]
           (RideSharingApp.new us locs rnd))).
Proof.
  split; [exact generateRides_body_uninitialized|].
  split; [exact generateRides_body_initError|].
  split; [intros s n; apply forAwait_uninitialized|].
  split.
  - intros s q Hq Hs. destruct (iterations_pos q Hq) as [n Hn].
    unfold RideSharingApp.processMultipleRides. rewrite Hn.
    by apply forAwait_uninitialized.
  - intros us locs rnd e q Hq. destruct (iterations_pos q Hq) as [n Hn].
    unfold RideSharingApp.startApp, try_catch, RideSharingApp.processMultipleRides.
    rewrite Hn. change (negb (typeof (JsNum q) =? "number")) with false. cbv iota.
    erewrite bind_Normal by reflexivity.
    erewrite bind_Normal by reflexivity.
    rewrite forAwait_uninitialized; [reflexivity|].
    right; right. reflexivity.
Qed.

(** ** The batch entry point *)

Lemma fetchDrivers_Normal net s :
  fst (RideSharingApp.fetchDrivers net s) = Normal tt.
Proof.
  destruct net as [e|ok st [e|ds]]; [reflexivity|..]; destruct ok; reflexivity.
Qed.

(** For every count that is a number and not positive, [startApp] announces
    the start and fetches the drivers; the loop then runs no turn. *)
Lemma startApp_nonpositive net q s :
  (q <= 0)%Q ->
  RideSharingApp.startApp net (JsNum q) s =
  (Normal tt,
   after (RideSharingApp.fetchDrivers net)
     (set_console (console s ++ [console_log [Lit "App started successfully!"]]) s)).
Proof.
  intros Hq.
  unfold RideSharingApp.startApp, try_catch, RideSharingApp.processMultipleRides, after.
  rewrite (iterations_nonpos q Hq).
  change (negb (typeof (JsNum q) =? "number")) with false. cbv iota.
  erewrite bind_Normal by reflexivity.
  unfold bind.
  match goal with |- context [RideSharingApp.fetchDrivers net ?s1] =>
    assert (H := fetchDrivers_Normal net s1);
    destruct (RideSharingApp.fetchDrivers net s1) as [c s2] end.
  simpl in H. subst c. reflexivity.
Qed.

(** C7, on the code: [startApp] rejects an argument that is not a number,
    with the message and nothing else; but the counts 0 and -3 are not
    rejected: the start is announced, the drivers are fetched and stored,
    no rejection is written, and the batch runs with no ride. *)
Theorem startApp_rejects_only_non_numbers :
  (forall net s, RideSharingApp.startApp net JsUndefined s = (Normal tt, rejected s))
  /\ (forall net s b, RideSharingApp.startApp net (JsBool b) s = (Normal tt, rejected s))
  /\ (forall net s str, RideSharingApp.startApp net (JsStr str) s = (Normal tt, rejected s))
  /\ (forall net s, RideSharingApp.startApp net JsObject s = (Normal tt, rejected s))
  /\ (forall net s, RideSharingApp.startApp net JsFunction s = (Normal tt, rejected s))
  /\ drivers seed_app = []
  /\ fst (RideSharingApp.startApp two_drivers (JsNum 0) seed_app) = Normal tt
  /\ console (after (RideSharingApp.startApp two_drivers (JsNum 0)) seed_app)
     = [console_log [Lit "App started successfully!"]]
  /\ drivers (after (RideSharingApp.startApp two_drivers (JsNum 0)) seed_app)
     = [Driver.new 1 "Leanne Graham" 0 true; Driver.new 2 "Ervin Howell" 0 true]
  /\ rides (after (RideSharingApp.startApp two_drivers (JsNum 0)) seed_app) = []
  /\ console (after (RideSharingApp.startApp two_drivers (JsNum (-3))) seed_app)
     = [console_log [Lit "App started successfully!"]]
  /\ drivers (after (RideSharingApp.startApp two_drivers (JsNum (-3))) seed_app)
     = [Driver.new 1 "Leanne Graham" 0 true; Driver.new 2 "Ervin Howell" 0 true].
Proof.
  do 5 (split; [reflexivity|]). by_evaluation.
Qed.

(** ** What a whole run keeps *)

Section Preservation.
Variable I : State -> Prop.

Lemma preserves_ret {A} (a : A) : preserves I (ret a).
Proof. intros s H. exact H. Qed.

Lemma preserves_throw {A} e : preserves I (@throw A e).
Proof. intros s H. exact H. Qed.

Lemma preserves_get : preserves I get.
Proof. intros s H. exact H. Qed.

Lemma preserves_modify f : (forall s, I s -> I (f s)) -> preserves I (modify f).
Proof. intros Hf s H. by apply Hf. Qed.

Lemma preserves_bind {A B} (m : M A) (k : A -> M B) :
  preserves I m -> (forall a, preserves I (k a)) -> preserves I (bind m k).
Proof.
  intros Hm Hk s H. unfold bind. specialize (Hm s H).
  destruct (m s) as [[a|e] s']; simpl in *; [by apply Hk | done].
Qed.

Lemma preserves_try_catch {A} (m : M A) (h : Exn -> M A) :
  preserves I m -> (forall e, preserves I (h e)) -> preserves I (try_catch m h).
Proof.
  intros Hm Hh s H. unfold try_catch. specialize (Hm s H).
  destruct (m s) as [[a|e] s']; simpl in *; [done | by apply Hh].
Qed.

Lemma readUser_preserves prop ref : preserves I (readUser prop ref).
Proof.
  unfold readUser. apply preserves_bind; [apply preserves_get|].
  intros s. destruct (_ ≫= _); [apply preserves_ret | apply preserves_throw].
Qed.

Lemma readDriver_preserves prop ref : preserves I (readDriver prop ref).
Proof.
  unfold readDriver. apply preserves_bind; [apply preserves_get|].
  intros s. destruct (_ ≫= _); [apply preserves_ret | apply preserves_throw].
Qed.

Lemma readRide_preserves ref : preserves I (readRide ref).
Proof.
  unfold readRide. apply preserves_bind; [apply preserves_get|].
  intros s. destruct (_ !! _); [apply preserves_ret | apply preserves_throw].
Qed.
End Preservation.

(** One step along the structure of a computation. *)
Ltac preserve_step :=
  lazymatch goal with
  | |- preserves _ (ret _) => apply preserves_ret
  | |- preserves _ (throw _) => apply preserves_throw
  | |- preserves _ get => apply preserves_get
  | |- preserves _ (bind _ _) => apply preserves_bind; [| intros ?]
  | |- preserves _ (try_catch _ _) => apply preserves_try_catch; [| intros ?]
  | |- preserves _ (modify _) => apply preserves_modify; intros ? ?
  | |- preserves _ (readUser _ _) => apply readUser_preserves
  | |- preserves _ (readDriver _ _) => apply readDriver_preserves
  | |- preserves _ (readRide _) => apply readRide_preserves
  | |- preserves _ (if ?b then _ else _) => destruct b
  | |- preserves _ (match ?x with _ => _ end) => destruct x eqn:?
  end.

(** *** The VIP flag agrees with the score *)

Lemma vipOK_addRaiting r em d : vipOK (fst (Driver.addRaiting r em d)).
Proof. apply addRaiting_isVIP. Qed.

Lemma writeDriver_driversOK prop ref f :
  (forall d, vipOK d -> vipOK (f d)) -> preserves driversOK (writeDriver prop ref f).
Proof.
  intros Hf. unfold writeDriver. repeat preserve_step.
  apply Forall_alter; [done|]. intros x _. apply Hf.
Qed.

Lemma Math_random_driversOK : preserves driversOK Math_random.
Proof. intros s H. exact H. Qed.

Ltac drivers_leaf :=
  lazymatch goal with
  | |- preserves _ Math_random => apply Math_random_driversOK
  | |- preserves _ (writeDriver _ _ (Driver.set_profit _)) =>
      apply writeDriver_driversOK; intros ? ?; assumption
  | |- preserves _ (writeDriver _ _ (Driver.set_isAvailable _)) =>
      apply writeDriver_driversOK; intros ? ?; assumption
  | |- driversOK _ => assumption
  end.

Ltac drivers := repeat first [ preserve_step | drivers_leaf ].

Lemma payment_driversOK ride : preserves driversOK (RideSharingApp.payment ride).
Proof.
  unfold RideSharingApp.payment, PaymentService.processPayment, writeUser, log.
  drivers.
Qed.

Lemma callDriver_addRaiting_driversOK prop ref r :
  preserves driversOK (RideSharingApp.callDriver prop ref (Driver.addRaiting r)).
Proof.
  unfold RideSharingApp.callDriver, emitted. drivers.
  apply writeDriver_driversOK. intros _ _.
  match goal with H : Driver.addRaiting ?r ?em ?d = (?d', _) |- vipOK ?d' =>
    replace d' with (fst (Driver.addRaiting r em d)) by (by rewrite H);
    apply vipOK_addRaiting
  end.
Qed.

Lemma runTimers_driversOK ts : preserves driversOK (RideSharingApp.runTimers ts).
Proof.
  induction ts as [|t ts IH]; simpl; drivers; [|exact IH].
  unfold RideSharingApp.rideCompleted_callback, writeUser, writeRide, log.
  drivers. apply callDriver_addRaiting_driversOK.
Qed.

Lemma forAwait_driversOK n : preserves driversOK (RideSharingApp.forAwait n).
Proof.
  induction n as [|n IH]; simpl; drivers.
  - unfold RideSharingApp.generateRides_body, RideFactory.rideRequest,
      RideSharingApp.randomIndexMethod, log.
    drivers.
  - unfold RideSharingApp.sleep. drivers. apply runTimers_driversOK.
  - unfold RideSharingApp.processRide, RideSharingApp.callUser,
      RideSharingApp.rideCompleted, RideSharingApp.setTimeout,
      writeUser, writeRide, log, emitted.
    drivers. all: apply payment_driversOK.
  - exact IH.
Qed.

Lemma startApp_driversOK net numRides :
  preserves driversOK (RideSharingApp.startApp net numRides).
Proof.
  unfold RideSharingApp.startApp, RideSharingApp.processMultipleRides,
    RideSharingApp.fetchDrivers, log, log_error.
  drivers; try apply forAwait_driversOK.
  unfold driversOK. simpl. apply Forall_map, Forall_forall. intros x _. reflexivity.
Qed.

(** *** A Premium rider stays Premium *)

Lemma premium_kept_refl s : premium_kept s s.
Proof. intros i u Hu Hp. by exists u. Qed.

Lemma premium_kept_users s0 s s' :
  users s' = users s -> premium_kept s0 s -> premium_kept s0 s'.
Proof. intros E H i u Hu Hp. rewrite E. exact (H i u Hu Hp). Qed.

Lemma premium_kept_alter s0 s s' f k :
  users s' = alter f k (users s) ->
  (forall x, users s !! k = Some x ->
     User.isPremium x = true -> User.isPremium (f x) = true) ->
  premium_kept s0 s -> premium_kept s0 s'.
Proof.
  intros E Hf H i u Hu Hp. destruct (H i u Hu Hp) as (x & Hx & Hxp).
  rewrite E, list_lookup_alter. destruct (decide (k = i)) as [->|Hne].
  - rewrite Hx. simpl. exists (f x). split; [done | by apply Hf].
  - by exists x.
Qed.

Section PremiumKept.
Variable s0 : State.

Lemma writeUser_premium_kept prop ref f :
  (forall x, User.isPremium x = true -> User.isPremium (f x) = true) ->
  preserves (premium_kept s0) (writeUser prop ref f).
Proof.
  intros Hf. unfold writeUser. repeat preserve_step.
  eapply premium_kept_alter; [reflexivity | | eassumption].
  intros x _. apply Hf.
Qed.

Lemma writeDriver_premium_kept prop ref f :
  preserves (premium_kept s0) (writeDriver prop ref f).
Proof.
  unfold writeDriver. repeat preserve_step.
  eapply premium_kept_users; [|eassumption]. reflexivity.
Qed.

Lemma Math_random_premium_kept : preserves (premium_kept s0) Math_random.
Proof. intros s H. exact H. Qed.

(** [user.addPoints] through a reference: the object written back is the
    result of the method on the object read. *)
Lemma callUser_addPoints_premium_kept prop ref p :
  preserves (premium_kept s0) (RideSharingApp.callUser prop ref (User.addPoints p)).
Proof.
  intros s H.
  unfold RideSharingApp.callUser, readUser, writeUser, emitted, bind, get,
    modify, ret, throw.
  destruct ref as [i|]; simpl; [|exact H].
  destruct (users s !! i) as [u|] eqn:E; simpl; [|exact H].
  destruct (User.addPoints p (eventEmitter s) u) as [u' out] eqn:Ea.
  simpl. rewrite E. simpl.
  eapply premium_kept_alter; [reflexivity | | exact H].
  intros x Hx Hp. rewrite E in Hx. injection Hx as <-.
  replace u' with (fst (User.addPoints p (eventEmitter s) u)) by (by rewrite Ea).
  rewrite addPoints_isPremium, Hp. reflexivity.
Qed.

End PremiumKept.

Ltac premium_leaf :=
  lazymatch goal with
  | |- preserves _ Math_random => apply Math_random_premium_kept
  | |- preserves _ (writeDriver _ _ _) => apply writeDriver_premium_kept
  | |- preserves _ (RideSharingApp.callUser _ _ (User.addPoints _)) =>
      apply callUser_addPoints_premium_kept
  | |- preserves _ (writeUser _ _ _) =>
      apply writeUser_premium_kept; intros ? ?; assumption
  | |- premium_kept _ _ =>
      first [ assumption
            | eapply premium_kept_users; [| eassumption]; reflexivity ]
  end.

Ltac premium := repeat first [ preserve_step | premium_leaf ].

Section PremiumKeptRun.
Variable s0 : State.

Lemma payment_premium_kept ride :
  preserves (premium_kept s0) (RideSharingApp.payment ride).
Proof.
  unfold RideSharingApp.payment, PaymentService.processPayment, log. premium.
Qed.

Lemma runTimers_premium_kept ts :
  preserves (premium_kept s0) (RideSharingApp.runTimers ts).
Proof.
  induction ts as [|t ts IH]; simpl; premium; [|exact IH].
  unfold RideSharingApp.rideCompleted_callback, RideSharingApp.callDriver,
    writeRide, log, emitted.
  premium.
Qed.

Lemma forAwait_premium_kept n :
  preserves (premium_kept s0) (RideSharingApp.forAwait n).
Proof.
  induction n as [|n IH]; simpl; premium.
  - unfold RideSharingApp.generateRides_body, RideFactory.rideRequest,
      RideSharingApp.randomIndexMethod, log.
    premium.
  - unfold RideSharingApp.sleep. premium. apply runTimers_premium_kept.
  - unfold RideSharingApp.processRide, RideSharingApp.rideCompleted,
      RideSharingApp.setTimeout, writeRide, log.
    premium. all: apply payment_premium_kept.
  - exact IH.
Qed.

Lemma startApp_premium_kept net numRides :
  preserves (premium_kept s0) (RideSharingApp.startApp net numRides).
Proof.
  unfold RideSharingApp.startApp, RideSharingApp.processMultipleRides,
    RideSharingApp.fetchDrivers, log, log_error.
  premium. all: apply forAwait_premium_kept.
Qed.

End PremiumKeptRun.

(** ** The tier invariants *)

(** C9. After every [addRaiting] call the VIP flag equals (score >= 4),
    whatever the driver was before the call and after any sequence of
    calls, and for a driver as the constructor makes it also before the
    first call: the call raises the flag when the new score is at least 4
    and the flag was not set, announcing it on the event bus, and lowers
    it when the new score is below 4 and the flag was set.  Nothing else
    in the program writes the flag or the score: after [startApp], however
    it ends, the flag of every driver of the controller equals
    (score >= 4). *)
Theorem addRaiting_VIP_invariant :
  (forall em d r,
     Driver.isVIP (fst (Driver.addRaiting r em d)) = true <->
     (4 <= Driver.VIPRaiting (fst (Driver.addRaiting r em d)))%Q)
  /\ (forall em d rs r,
       Driver.isVIP (addRaitingAll em (rs ++ [r]) d) = true <->
       (4 <= Driver.VIPRaiting (addRaitingAll em (rs ++ [r]) d))%Q)
  /\ (forall em id name profit isAvailable rs,
       Driver.isVIP (addRaitingAll em rs (Driver.new id name profit isAvailable))
       = true <->
       (4 <= Driver.VIPRaiting
               (addRaitingAll em rs (Driver.new id name profit isAvailable)))%Q)
  /\ (forall em d r,
       Driver.isVIP d = false ->
       (4 <= Driver.VIPRaiting (fst (Driver.addRaiting r em d)))%Q ->
       Driver.isVIP (fst (Driver.addRaiting r em d)) = true
       /\ snd (Driver.addRaiting r em d) =
          EventEmitter.emit "VIPDriver"
            {| EventEmitter.name := Driver.name d; EventEmitter.points := None |} em)
  /\ (forall em d r,
       Driver.isVIP d = true ->
       (Driver.VIPRaiting (fst (Driver.addRaiting r em d)) < 4)%Q ->
       Driver.isVIP (fst (Driver.addRaiting r em d)) = false
       /\ snd (Driver.addRaiting r em d) =
          EventEmitter.emit "regularDriver"
            {| EventEmitter.name := Driver.name d; EventEmitter.points := None |} em)
  /\ (forall net numRides us locs rnd d,
       d ∈ drivers (after (RideSharingApp.startApp net numRides)
                          (RideSharingApp.new us locs rnd)) ->
       Driver.isVIP d = true <-> (4 <= Driver.VIPRaiting d)%Q).
Proof.
  assert (Hone : forall em d r,
    Driver.isVIP (fst (Driver.addRaiting r em d)) = true <->
    (4 <= Driver.VIPRaiting (fst (Driver.addRaiting r em d)))%Q).
  { intros em d r. rewrite addRaiting_isVIP. apply num_ge_iff. }
  split; [exact Hone|]. split; [|split; [|split; [|split]]].
  - intros em d rs r. rewrite addRaitingAll_snoc. apply Hone.
  - intros em id name profit isAvailable rs.
    destruct rs as [|r rs _] using rev_ind.
    + simpl. split; [discriminate|]. intros H. exfalso. revert H. apply Qlt_not_le.
      reflexivity.
    + rewrite addRaitingAll_snoc. apply Hone.
  - intros em d r Hflag Hscore. split; [by apply Hone|].
    rewrite addRaiting_VIPRaiting in Hscore. apply num_ge_iff in Hscore.
    unfold Driver.addRaiting, Driver.checkForUpgrade.
    destruct (num_eq (Driver.VIPRaiting d) 0); simpl in *;
      rewrite Hscore, Hflag; reflexivity.
  - intros em d r Hflag Hscore. split.
    + destruct (Driver.isVIP (fst (Driver.addRaiting r em d))) eqn:E; [|done].
      apply Hone in E. lra.
    + rewrite addRaiting_VIPRaiting in Hscore. apply num_lt_iff in Hscore.
      assert (Hge : forall x, num_lt x 4 = true -> num_ge x 4 = false).
      { intros x. unfold num_lt, num_ge. by rewrite negb_true_iff. }
      unfold Driver.addRaiting, Driver.checkForUpgrade.
      destruct (num_eq (Driver.VIPRaiting d) 0); simpl in *;
        rewrite (Hge _ Hscore), Hscore, Hflag; reflexivity.
  - intros net numRides us locs rnd d Hd.
    assert (Hall : driversOK (after (RideSharingApp.startApp net numRides)
                                    (RideSharingApp.new us locs rnd))).
    { apply startApp_driversOK. constructor. }
    unfold driversOK in Hall. rewrite Forall_forall in Hall.
    rewrite (Hall d Hd). apply num_ge_iff.
Qed.

Lemma addRaiting_VIP_invariant_witness :
  Driver.isVIP (fst (Driver.addRaiting 2 listeners0 fresh_driver)) = true
  /\ Driver.isVIP
       (fst (Driver.addRaiting (-100) listeners0
               (addRaitingAll listeners0 [2%Q] fresh_driver))) = false
  /\ (let d := {| Driver.id := 1; Driver.name := "Leanne Graham";
                  Driver.profit := 104; Driver.isAvailable := true;
                  Driver.isVIP := true; Driver.VIPRaiting := 15 # 2 |} in
      Driver.isVIP d = true <-> (4 <= Driver.VIPRaiting d)%Q).
Proof.
  destruct addRaiting_VIP_invariant as (_ & _ & _ & Hup & Hdown & Hrun).
  split; [|split].
  - apply Hup; [reflexivity | vm_compute; discriminate].
  - apply Hdown; [reflexivity | reflexivity].
  - cbv zeta.
    apply (Hrun two_drivers (JsNum 5) users_seed locations_seed
             (entropy_at [4; 6]%nat (1 # 2))).
    apply list_elem_of_In. vm_compute. left. reflexivity.
Defined.

(** C8. Write [state k] for a rider after the first [k] calls of a
    sequence of [addPoints] calls.  The rider is Premium after [k] calls
    exactly when it was Premium at the start or some call among the first
    [k] left at least 50 points; a rider that is Premium stays Premium;
    and for a rider that starts not Premium, if call [k0] is the first
    after which the points are at least 50, the flag is false before call
    [k0] and true from call [k0] on: one transition, never undone.
    Nothing else in the program clears the flag: a rider who is Premium
    when [startApp] is called is Premium when it ends. *)
Theorem addPoints_premium_once em u ps :
  let state k := addPointsAll em (take k ps) u in
  (forall k, (k <= length ps)%nat ->
     User.isPremium (state k) = true <->
     User.isPremium u = true \/
     exists j, (1 <= j <= k)%nat /\ (50 <= User.premiumPoints (state j))%Q)
  /\ (forall j k, (j <= k)%nat ->
        User.isPremium (state j) = true -> User.isPremium (state k) = true)
  /\ (forall k0, (1 <= k0 <= length ps)%nat ->
        User.isPremium u = false ->
        (forall j, (1 <= j < k0)%nat -> (User.premiumPoints (state j) < 50)%Q) ->
        (50 <= User.premiumPoints (state k0))%Q ->
        (forall k, (k < k0)%nat -> User.isPremium (state k) = false)
        /\ (forall k, (k0 <= k)%nat -> User.isPremium (state k) = true))
  /\ (forall net numRides s i r,
        users s !! i = Some r -> User.isPremium r = true ->
        exists r', users (after (RideSharingApp.startApp net numRides) s) !! i = Some r'
                   /\ User.isPremium r' = true).
Proof.
  cbv zeta.
  assert (Hchar := fun k => addPointsAll_isPremium em ps u k).
  assert (Hmono : forall j k, (j <= k)%nat ->
            User.isPremium (addPointsAll em (take j ps) u) = true ->
            User.isPremium (addPointsAll em (take k ps) u) = true).
  { intros j k Hjk.
    rewrite (addPointsAll_take_ge em ps u j), (addPointsAll_take_ge em ps u k).
    rewrite !Hchar by lia.
    intros [H|(i & Hi & H)]; [by left|]. right. exists i. split; [lia|done]. }
  split; [exact Hchar|]. split; [exact Hmono|]. split.
  2:{ intros net numRides s i r Hr Hp.
      exact (startApp_premium_kept s net numRides s (premium_kept_refl s) i r Hr Hp). }
  intros k0 Hk0 Hu Hbelow Hreach. split.
  - intros k Hk.
    destruct (User.isPremium (addPointsAll em (take k ps) u)) eqn:E; [|done].
    apply Hchar in E; [|lia]. destruct E as [E|(j & Hj & E)]; [congruence|].
    specialize (Hbelow j ltac:(lia)). lra.
  - intros k Hk. apply (Hmono k0 k Hk). apply Hchar; [lia|].
    right. exists k0. split; [lia|done].
Qed.

Lemma addPoints_premium_once_witness :
  User.isPremium (addPointsAll listeners0 [30%Q; 15%Q] seed_u1) = false
  /\ User.isPremium (addPointsAll listeners0 [30%Q; 15%Q; 10%Q] seed_u1) = true
  /\ User.isPremium (addPointsAll listeners0 [30%Q; 15%Q; 10%Q; 5%Q] seed_u1) = true
  /\ exists r', users (run_fare_100 (premium_rider 1000)) !! 0%nat = Some r'
                /\ User.isPremium r' = true.
Proof.
  destruct (addPoints_premium_once listeners0 seed_u1
              [30%Q; 15%Q; 10%Q; 5%Q]) as (_ & _ & Honce & Hrun).
  destruct (Honce 3%nat) as [Hbefore Hafter].
  - simpl. lia.
  - reflexivity.
  - intros j Hj. assert (Hcases : j = 1%nat \/ j = 2%nat) by lia.
    destruct Hcases as [-> | ->]; reflexivity.
  - vm_compute. discriminate.
  - split; [exact (Hbefore 2%nat ltac:(lia))|].
    split; [exact (Hafter 3%nat ltac:(lia))|].
    split; [exact (Hafter 4%nat ltac:(lia))|].
    exact (Hrun one_driver (JsNum 1)
             (RideSharingApp.new [premium_rider 1000] locations_seed (fun _ => 49 # 100))
             0%nat (premium_rider 1000) eq_refl eq_refl).
Defined.

(** * Further properties of the program *)

Lemma unit_interval_49 : unit_interval (49 # 100).
Proof. split; [discriminate | reflexivity]. Qed.

Lemma State_ext s1 s2 :
  users s1 = users s2 -> locations s1 = locations s2 -> drivers s1 = drivers s2 ->
  rides s1 = rides s2 -> eventEmitter s1 = eventEmitter s2 ->
  console s1 = console s2 -> entropy s1 = entropy s2 -> drawn s1 = drawn s2 ->
  clock s1 = clock s2 -> timers s1 = timers s2 -> s1 = s2.
Proof. destruct s1, s2. simpl. intros. by subst. Qed.

Lemma alter_alter_const {A} (f : A -> A) (y : A) i (l : list A) x :
  l !! i = Some x -> alter (fun _ => y) i (alter f i l) = alter (fun _ => y) i l.
Proof.
  intros Hx. apply list_eq. intros k. destruct (decide (i = k)) as [->|Hne].
  - rewrite !list_lookup_alter_eq, Hx. reflexivity.
  - by rewrite !list_lookup_alter_ne.
Qed.

(** ** The event emitter *)

Lemma emit_on_same (this : EventEmitter.t) e cb d :
  EventEmitter.emit e d (EventEmitter.on e cb this) =
  (EventEmitter.emit e d this ++ cb d)%list.
Proof.
  unfold EventEmitter.emit, EventEmitter.on, EventEmitter.t in *.
  destruct (this !! e) as [cbs|] eqn:E; rewrite lookup_insert_eq.
  - rewrite map_app, concat_app. simpl. by rewrite app_nil_r.
  - simpl. by rewrite app_nil_r.
Qed.

Lemma emit_on_other (this : EventEmitter.t) e e' cb d :
  e <> e' ->
  EventEmitter.emit e' d (EventEmitter.on e cb this) = EventEmitter.emit e' d this.
Proof.
  intros Hne. unfold EventEmitter.emit, EventEmitter.on, EventEmitter.t in *.
  destruct (this !! e) as [cbs|] eqn:E; by rewrite lookup_insert_ne.
Qed.

(** X1.  For event names that [this.listeners] does not inherit from
    [Object.prototype]: [emit] on a new emitter calls nothing.  After
    [on(e, cb)], an [emit] of [e] calls the callbacks registered before,
    in their order, and then [cb]; an [emit] of any other event is what
    it was.  (For an inherited name such as "toString" the source throws
    a TypeError in [on] and in [emit].) *)
Theorem on_emit (this : EventEmitter.t) e e' cb d :
  inherited e = false -> inherited e' = false ->
  EventEmitter.emit e' d EventEmitter.new = [] /\
  EventEmitter.emit e' d (EventEmitter.on e cb this) =
  if String.eqb e e' then (EventEmitter.emit e' d this ++ cb d)%list
  else EventEmitter.emit e' d this.
Proof.
  intros _ _. split; [reflexivity|].
  destruct (String.eqb_spec e e') as [->|Hne].
  - apply emit_on_same.
  - by apply emit_on_other.
Qed.

Lemma on_emit_witness :
  let d := {| EventEmitter.name := "Olivia Martinez"; EventEmitter.points := Some 50%Q |} in
  let cb := fun data => [console_log [Lit (EventEmitter.name data); Lit " was seen."]] in
  EventEmitter.emit "pointsEarned" d EventEmitter.new = [] /\
  EventEmitter.emit "pointsEarned" d (EventEmitter.on "pointsEarned" cb listeners0) =
  if String.eqb "pointsEarned" "pointsEarned"
  then (EventEmitter.emit "pointsEarned" d listeners0 ++ cb d)%list
  else EventEmitter.emit "pointsEarned" d listeners0.
Proof.
  cbv zeta.
  apply (on_emit listeners0 "pointsEarned" "pointsEarned"
           (fun data => [console_log [Lit (EventEmitter.name data); Lit " was seen."]])
           {| EventEmitter.name := "Olivia Martinez";
              EventEmitter.points := Some 50%Q |});
    reflexivity.
Defined.

(** X2.  [setupListenersPremium] gives each of its four events one more
    listener, which writes the line of that event, behind the listeners
    the emitter had; the listeners of every other event are untouched. *)
Theorem setupListenersPremium_adds_one_listener em d :
  let em' := RideSharingApp.setupListenersPremium em in
  EventEmitter.emit "pointsEarned" d em' =
    (EventEmitter.emit "pointsEarned" d em ++
     [console_log [Lit (EventEmitter.name d); Lit " has earned ";
                   match EventEmitter.points d with
                   | Some p => Num p
                   | None => Lit "undefined"
                   end; Lit " points."]])%list /\
  EventEmitter.emit "premiumUser" d em' =
    (EventEmitter.emit "premiumUser" d em ++
     [console_log [Lit "Congratulations! "; Lit (EventEmitter.name d);
                   Lit " has been upgraded to a Premium User!"]])%list /\
  EventEmitter.emit "VIPDriver" d em' =
    (EventEmitter.emit "VIPDriver" d em ++
     [console_log [Lit "Congratulations! "; Lit (EventEmitter.name d);
                   Lit " has been upgraded to a VIP Driver!"]])%list /\
  EventEmitter.emit "regularDriver" d em' =
    (EventEmitter.emit "regularDriver" d em ++
     [console_log [Lit "Unfortunatelly, "; Lit (EventEmitter.name d);
                   Lit " has been downgraded to a Regular Driver!"]])%list /\
  forall e, e <> "pointsEarned" -> e <> "premiumUser" -> e <> "VIPDriver" ->
    e <> "regularDriver" ->
    EventEmitter.emit e d em' = EventEmitter.emit e d em.
Proof.
  cbv zeta. unfold RideSharingApp.setupListenersPremium.
  repeat match goal with |- _ /\ _ => split end.
  - rewrite !emit_on_other by done. by rewrite emit_on_same.
  - rewrite !emit_on_other by done. rewrite emit_on_same.
    by rewrite !emit_on_other by done.
  - rewrite !emit_on_other by done. rewrite emit_on_same.
    by rewrite !emit_on_other by done.
  - rewrite emit_on_same. by rewrite !emit_on_other by done.
  - intros e H1 H2 H3 H4. by rewrite !emit_on_other by done.
Qed.

Lemma setupListenersPremium_adds_one_listener_witness :
  let d := {| EventEmitter.name := "Olivia Martinez"; EventEmitter.points := Some 50%Q |} in
  EventEmitter.emit "pointsEarned" d listeners0 =
    [console_log [Lit "Olivia Martinez"; Lit " has earned "; Num 50; Lit " points."]]
  /\ EventEmitter.emit "rideCompleted" d listeners0 = [].
Proof.
  cbv zeta.
  destruct (setupListenersPremium_adds_one_listener EventEmitter.new
              {| EventEmitter.name := "Olivia Martinez";
                 EventEmitter.points := Some 50%Q |})
    as (Hpoints & _ & _ & _ & Hother).
  split; [exact Hpoints|].
  exact (Hother "rideCompleted" ltac:(discriminate) ltac:(discriminate)
           ltac:(discriminate) ltac:(discriminate)).
Defined.

(** ** Random choice *)

Lemma floor_scale r n :
  unit_interval r -> (0 < n)%Z -> (0 <= Math_floor (r * inject_Z n) < n)%Z.
Proof.
  intros [H0 H1] Hn. unfold Math_floor.
  assert (Hn' : (0 < inject_Z n)%Q) by (rewrite (Zlt_Qlt 0 n) in Hn; exact Hn).
  split.
  - change 0%Z with (Qfloor 0). apply Qfloor_resp_le. nra.
  - assert (Hf := Qfloor_le (r * inject_Z n)).
    assert (Hlt : (inject_Z (Qfloor (r * inject_Z n)) < inject_Z n)%Q) by nra.
    rewrite <- Zlt_Qlt in Hlt. exact Hlt.
Qed.

Lemma index_in_range {A} (array : list A) i :
  (0 <= i < Z.of_nat (length array))%Z -> exists x, index array i = Some x /\ x ∈ array.
Proof.
  intros Hi. unfold index. destruct (Z.ltb_spec i 0); [lia|].
  destruct (lookup_lt_is_Some_2 array (Z.to_nat i)) as [x Hx]; [lia|].
  exists x. split; [done|]. by eapply list_elem_of_lookup_2.
Qed.

Lemma index_nil {A} i : index (@nil A) i = None.
Proof. unfold index. by destruct (_ <? _)%Z. Qed.

Lemma randomIndexMethod_run {A} (array : list A) s :
  RideSharingApp.randomIndexMethod array s =
  (Normal (index array
             (Math_floor (entropy s (drawn s) * inject_Z (Z.of_nat (length array))))),
   set_drawn (S (drawn s)) s).
Proof. reflexivity. Qed.

Lemma randomIndexMethod_nonempty {A} (array : list A) s :
  array <> [] -> unit_interval (entropy s (drawn s)) ->
  exists x, RideSharingApp.randomIndexMethod array s
            = (Normal (Some x), set_drawn (S (drawn s)) s)
            /\ x ∈ array.
Proof.
  intros Hne Hr.
  assert (Hlen : (0 < Z.of_nat (length array))%Z) by (destruct array; [done | simpl; lia]).
  destruct (index_in_range array _ (floor_scale _ _ Hr Hlen)) as (x & Hx & Hin).
  exists x. split; [|done]. by rewrite randomIndexMethod_run, Hx.
Qed.

(** X3.  With a draw in [0, 1), [randomIndexMethod] consumes that one
    draw and returns an element of the array; it returns [undefined]
    only for the empty array. *)
Theorem randomIndexMethod_result {A} (array : list A) s :
  unit_interval (entropy s (drawn s)) ->
  exists r,
    RideSharingApp.randomIndexMethod array s = (Normal r, set_drawn (S (drawn s)) s)
    /\ match r with
       | Some x => x ∈ array
       | None => array = []
       end.
Proof.
  intros Hr. destruct array as [|a l].
  - exists None. split; [|done]. by rewrite randomIndexMethod_run, index_nil.
  - destruct (randomIndexMethod_nonempty (a :: l) s) as (x & E & Hx); [done..|].
    by exists (Some x).
Qed.

Lemma randomIndexMethod_result_witness :
  exists r,
    RideSharingApp.randomIndexMethod locations_seed (ready [seed_u1] [fresh_driver])
    = (Normal r, set_drawn 1 (ready [seed_u1] [fresh_driver]))
    /\ match r with
       | Some x => x ∈ locations_seed
       | None => locations_seed = []
       end.
Proof.
  apply (randomIndexMethod_result locations_seed (ready [seed_u1] [fresh_driver])).
  exact unit_interval_49.
Defined.

(** ** The ride factory *)

Lemma string_of_uint_length d :
  String.length (NilEmpty.string_of_uint d) = N.to_nat (DecimalPos.Unsigned.usize d).
Proof.
  induction d; simpl String.length; simpl DecimalPos.Unsigned.usize;
    rewrite ?N2Nat.inj_succ; [reflexivity|..]; by rewrite IHd.
Qed.

Lemma string_of_uint_digits d : all_digits (NilEmpty.string_of_uint d).
Proof. unfold all_digits. induction d; simpl; constructor; done. Qed.

Lemma NilZero_nonnil d :
  d <> Decimal.Nil -> NilZero.string_of_uint d = NilEmpty.string_of_uint d.
Proof. destruct d; done. Qed.

Lemma of_uint_leading d :
  match d with
  | Decimal.Nil | Decimal.D0 _ => True
  | Decimal.D1 d' | Decimal.D2 d' | Decimal.D3 d' | Decimal.D4 d' | Decimal.D5 d'
  | Decimal.D6 d' | Decimal.D7 d' | Decimal.D8 d' | Decimal.D9 d' =>
      (10 ^ DecimalPos.Unsigned.usize d' <= Pos.of_uint d)%N
  end.
Proof.
  destruct d; try exact Logic.I;
    rewrite DecimalPos.Unsigned.of_uint_alt; unfold Decimal.rev;
    cbn [Decimal.revapp];
    rewrite DecimalPos.Unsigned.of_lu_revapp; simpl DecimalPos.Unsigned.of_lu; lia.
Qed.

Lemma to_uint_leading p :
  match Pos.to_uint p with
  | Decimal.Nil | Decimal.D0 _ => False
  | _ => True
  end.
Proof.
  assert (Hn := DecimalPos.Unsigned.to_of (Pos.to_uint p)).
  rewrite DecimalPos.Unsigned.of_to in Hn. simpl in Hn.
  assert (Hz := DecimalPos.Unsigned.to_uint_nonzero p).
  destruct (Pos.to_uint p) as [|d'| | | | | | | | |] eqn:E; try exact Logic.I.
  - by apply (DecimalPos.Unsigned.to_uint_nonnil p).
  - unfold Decimal.unorm in Hn. simpl Decimal.nzhead in Hn.
    assert (Hl := DecimalFacts.nb_digits_nzhead d').
    destruct (Decimal.nzhead d') eqn:En; try (rewrite <- Hn in Hl; simpl in Hl; lia).
    by apply Hz.
Qed.

(** [toString] of a natural number below [10^(k+1)] has at most [k+1]
    characters, all of them digits. *)
Lemma toString_length_le (n : Z) (k : nat) :
  (0 <= n < 10 ^ Z.of_nat (S k))%Z ->
  (1 <= String.length (toString n) <= S k)%nat /\ all_digits (toString n).
Proof.
  intros Hn. unfold toString. destruct n as [|p|p]; [| |lia].
  - simpl. split; [lia|]. repeat constructor.
  - simpl Z.to_int. unfold NilZero.string_of_int.
    assert (Hlead := to_uint_leading p). assert (Hbig := of_uint_leading (Pos.to_uint p)).
    rewrite DecimalPos.Unsigned.of_to in Hbig.
    rewrite NilZero_nonnil by apply DecimalPos.Unsigned.to_uint_nonnil.
    split; [|apply string_of_uint_digits].
    rewrite string_of_uint_length.
    assert (Hp : (N.pos p < 10 ^ N.of_nat (S k))%N).
    { apply N2Z.inj_lt. rewrite N2Z.inj_pow. simpl Z.of_N at 1.
      rewrite nat_N_Z. change (Z.of_N 10) with 10%Z. lia. }
    destruct (Pos.to_uint p) as [|d'|d'|d'|d'|d'|d'|d'|d'|d'|d'] eqn:E; try done;
      simpl DecimalPos.Unsigned.usize; rewrite N2Nat.inj_succ;
      (assert (Hu : (DecimalPos.Unsigned.usize d' < N.of_nat (S k))%N)
         by (apply (N.pow_lt_mono_r_iff 10); [lia | lia]));
      lia.
Qed.

Lemma repeat_char_length c n : String.length (repeat_char c n) = n.
Proof. induction n as [|n IH]; [reflexivity|]. simpl. f_equal. exact IH. Qed.

Lemma string_app_length (a b : string) :
  String.length (a ++ b) = (String.length a + String.length b)%nat.
Proof. induction a as [|c a IH]; [reflexivity|]. simpl. f_equal. exact IH. Qed.

Lemma all_digits_app (a b : string) :
  all_digits a -> all_digits b -> all_digits (a ++ b).
Proof.
  unfold all_digits. induction a; simpl; [done|].
  intros Ha Hb. inversion Ha; subst. constructor; [done | by apply IHa].
Qed.

Lemma repeat_char_digits c n : is_digit c = true -> all_digits (repeat_char c n).
Proof. intros Hc. unfold all_digits. induction n; simpl; by constructor. Qed.

Lemma padStart_length w c s :
  String.length (padStart w c s) = (w `max` String.length s)%nat.
Proof. unfold padStart. rewrite string_app_length, repeat_char_length. lia. Qed.

Lemma padStart_digits w c s :
  is_digit c = true -> all_digits s -> all_digits (padStart w c s).
Proof.
  intros Hc Hs. unfold padStart.
  apply all_digits_app; [by apply repeat_char_digits | done].
Qed.

Lemma rideRequest_run pickUp dropOff user driver s :
  RideFactory.rideRequest pickUp dropOff user driver s =
  (Normal (requested_ride pickUp dropOff user driver
             (entropy s (drawn s)) (entropy s (S (drawn s)))),
   set_drawn (S (S (drawn s))) s).
Proof. reflexivity. Qed.

Lemma requested_ride_shape pickUp dropOff user driver r1 r2 :
  unit_interval r1 -> unit_interval r2 ->
  let ride := requested_ride pickUp dropOff user driver r1 r2 in
  (exists k : Z, (1 <= k <= 100)%Z /\ (Ride.distance ride == inject_Z k)%Q)
  /\ Ride.fare ride = (Ride.distance ride * 2)%Q
  /\ String.length (Ride.id ride) = 10%nat
  /\ all_digits (Ride.id ride).
Proof.
  intros H1 H2. cbv zeta. unfold requested_ride.
  cbn [Ride.id Ride.fare Ride.distance].
  assert (Hd := floor_scale _ 100 H1 ltac:(lia)).
  assert (Hi := floor_scale _ 1000000 H2 ltac:(lia)).
  change (inject_Z 100) with 100%Q in Hd.
  change (inject_Z 1000000) with 1000000%Q in Hi.
  destruct (toString_length_le (Math_floor (r2 * 1000000)) 5)
    as [Hlen Hdig]; [change (10 ^ Z.of_nat 6)%Z with 1000000%Z; lia|].
  split; [|split; [reflexivity|split]].
  - exists (Math_floor (r1 * 100) + 1)%Z. split; [lia|].
    rewrite inject_Z_plus. reflexivity.
  - rewrite padStart_length. lia.
  - by apply padStart_digits.
Qed.

(** X4.  With its two draws in [0, 1), [RideFactory.rideRequest] returns a
    ride in status "requested" for the rider, driver and places it was
    given, whose distance is a whole number from 1 to 100, whose fare is
    twice the distance and whose id has exactly ten decimal digits. *)
Theorem rideRequest_shape pickUp dropOff user driver s :
  unit_interval (entropy s (drawn s)) ->
  unit_interval (entropy s (S (drawn s))) ->
  exists ride,
    RideFactory.rideRequest pickUp dropOff user driver s
    = (Normal ride, set_drawn (S (S (drawn s))) s)
    /\ (exists k : Z, (1 <= k <= 100)%Z /\ (Ride.distance ride == inject_Z k)%Q)
    /\ Ride.fare ride = (Ride.distance ride * 2)%Q
    /\ Ride.status ride = "requested"
    /\ String.length (Ride.id ride) = 10%nat
    /\ all_digits (Ride.id ride)
    /\ Ride.pickUp ride = pickUp /\ Ride.dropOff ride = dropOff
    /\ Ride.user ride = user /\ Ride.driver ride = driver.
Proof.
  intros H1 H2. eexists. split; [apply rideRequest_run|].
  destruct (requested_ride_shape pickUp dropOff user driver _ _ H1 H2)
    as (Hd & Hf & Hl & Hdig).
  repeat split; done.
Qed.

Lemma rideRequest_shape_witness :
  exists ride,
    RideFactory.rideRequest (Some "Location 6") (Some "Location 6")
      (Some 0%nat) (Some 0%nat) (ready [seed_u1] [fresh_driver])
    = (Normal ride, set_drawn 2 (ready [seed_u1] [fresh_driver]))
    /\ (exists k : Z, (1 <= k <= 100)%Z /\ (Ride.distance ride == inject_Z k)%Q)
    /\ Ride.fare ride = (Ride.distance ride * 2)%Q
    /\ Ride.status ride = "requested"
    /\ String.length (Ride.id ride) = 10%nat
    /\ all_digits (Ride.id ride)
    /\ Ride.pickUp ride = Some "Location 6" /\ Ride.dropOff ride = Some "Location 6"
    /\ Ride.user ride = Some 0%nat /\ Ride.driver ride = Some 0%nat.
Proof.
  apply (rideRequest_shape (Some "Location 6") (Some "Location 6")
           (Some 0%nat) (Some 0%nat) (ready [seed_u1] [fresh_driver]));
    exact unit_interval_49.
Defined.

(** ** The generator *)

Lemma users_not_inRide_spec us i :
  i ∈ RideSharingApp.users_not_inRide us <->
  exists u, us !! i = Some u /\ User.inRide u = false.
Proof.
  unfold RideSharingApp.users_not_inRide.
  rewrite list_elem_of_In, filter_In, in_seq. split.
  - intros [_ H]. destruct (us !! i) as [u|]; [|done].
    exists u. split; [done|]. by apply negb_true_iff.
  - intros (u & Hu & Hf). split.
    + apply lookup_lt_Some in Hu. lia.
    + rewrite Hu. by apply negb_true_iff.
Qed.

Lemma drivers_isAvailable_spec ds j :
  j ∈ RideSharingApp.drivers_isAvailable ds <->
  exists d, ds !! j = Some d /\ Driver.isAvailable d = true.
Proof.
  unfold RideSharingApp.drivers_isAvailable.
  rewrite list_elem_of_In, filter_In, in_seq. split.
  - intros [_ H]. destruct (ds !! j) as [d|]; [|done]. by exists d.
  - intros (d & Hd & Hf). split.
    + apply lookup_lt_Some in Hd. lia.
    + by rewrite Hd.
Qed.

Lemma set_drawn_self s : set_drawn (drawn s) s = s.
Proof. by destruct s. Qed.

Lemma randomIndexMethod_at {A} (array : list A) s k :
  array <> [] -> unit_interval (entropy s (drawn s + k)%nat) ->
  exists x, RideSharingApp.randomIndexMethod array (set_drawn (drawn s + k) s)
            = (Normal (Some x), set_drawn (drawn s + S k) s)
            /\ x ∈ array.
Proof.
  intros Hne Hr.
  destruct (randomIndexMethod_nonempty array (set_drawn (drawn s + k) s) Hne Hr)
    as (x & E & Hx).
  exists x. split; [|done]. rewrite E. unfold set_drawn. simpl.
  by rewrite Nat.add_succ_r.
Qed.

Lemma generateRides_body_run s :
  locations s <> [] ->
  RideSharingApp.users_not_inRide (users s) <> [] ->
  RideSharingApp.drivers_isAvailable (drivers s) <> [] ->
  unit_draws s 6 ->
  exists ride i j u d pick drop,
    RideSharingApp.generateRides_body s
    = (Normal (length (rides s)),
       set_console
         (console s ++
          [console_log [Lit (User.name u); Lit " has requested a ride from ";
                        Lit pick; Lit " to "; Lit drop; Lit "!"]])
         (set_rides (rides s ++ [ride]) (set_drawn (drawn s + 6) s)))
    /\ Ride.status ride = "requested"
    /\ Ride.user ride = Some i /\ users s !! i = Some u /\ User.inRide u = false
    /\ Ride.driver ride = Some j /\ drivers s !! j = Some d
    /\ Driver.isAvailable d = true
    /\ Ride.pickUp ride = Some pick /\ pick ∈ locations s
    /\ Ride.dropOff ride = Some drop /\ drop ∈ locations s
    /\ (exists k : Z, (1 <= k <= 100)%Z /\ (Ride.distance ride == inject_Z k)%Q)
    /\ Ride.fare ride = (Ride.distance ride * 2)%Q
    /\ String.length (Ride.id ride) = 10%nat /\ all_digits (Ride.id ride).
Proof.
  intros Hloc Hus Hds Hrnd.
  assert (Hguard : (length (locations s) =? 0)%nat || (length (users s) =? 0)%nat
                   || (length (drivers s) =? 0)%nat = false).
  { destruct (locations s), (users s), (drivers s); done. }
  destruct (randomIndexMethod_at (locations s) s 0 Hloc (Hrnd 0%nat ltac:(lia)))
    as (pick & E1 & Hpick).
  rewrite Nat.add_0_r, set_drawn_self in E1.
  destruct (randomIndexMethod_at (locations s) s 1 Hloc (Hrnd 1%nat ltac:(lia)))
    as (drop & E2 & Hdrop).
  destruct (randomIndexMethod_at _ s 2 Hus (Hrnd 2%nat ltac:(lia))) as (i & E3 & Hi).
  destruct (randomIndexMethod_at _ s 3 Hds (Hrnd 3%nat ltac:(lia))) as (j & E4 & Hj).
  apply users_not_inRide_spec in Hi. destruct Hi as (u & Hu & Hfree).
  apply drivers_isAvailable_spec in Hj. destruct Hj as (d & Hd & Havail).
  assert (E5 := rideRequest_run (Some pick) (Some drop) (Some i) (Some j)
                  (set_drawn (drawn s + 4) s)).
  destruct (requested_ride_shape (Some pick) (Some drop) (Some i) (Some j)
              (entropy s (drawn s + 4)) (entropy s (S (drawn s + 4))))
    as (Hdist & Hfare & Hlen & Hdig).
  { apply (Hrnd 4%nat). lia. }
  { rewrite <- Nat.add_succ_r. apply (Hrnd 5%nat). lia. }
  exists (requested_ride (Some pick) (Some drop) (Some i) (Some j)
            (entropy s (drawn s + 4)) (entropy s (S (drawn s + 4)))),
    i, j, u, d, pick, drop.
  split; [|by repeat split].
  unfold RideSharingApp.generateRides_body. unfold bind at 1, get at 1.
  rewrite Hguard.
  erewrite bind_Normal; [|exact E1].
  erewrite bind_Normal; [|exact E2].
  erewrite bind_Normal; [|exact E3].
  erewrite bind_Normal; [|exact E4].
  erewrite bind_Normal; [|exact E5].
  unfold readUser, log, modify. unfold bind, get, ret. simpl. rewrite Hu. simpl.
  do 3 f_equal. unfold set_drawn, set_rides. simpl.
  by rewrite !Nat.add_succ_r, Nat.add_0_r.
Qed.

(** X5.  When some rider is not in a ride, some driver is available, there
    is a location and the six draws are in [0, 1), one turn of
    [generateRides] appends one ride in status "requested" to the
    registry and writes one line; the rider of the ride is a rider who is
    not in a ride, the driver an available driver, and both places are
    locations of the controller.  Riders and drivers are not changed. *)
Theorem generateRides_body_selects s :
  locations s <> [] ->
  RideSharingApp.users_not_inRide (users s) <> [] ->
  RideSharingApp.drivers_isAvailable (drivers s) <> [] ->
  unit_draws s 6 ->
  exists ride line,
    RideSharingApp.generateRides_body s
    = (Normal (length (rides s)),
       set_console (console s ++ [line])
         (set_rides (rides s ++ [ride]) (set_drawn (drawn s + 6) s)))
    /\ Ride.status ride = "requested"
    /\ (exists i u, Ride.user ride = Some i /\ users s !! i = Some u
                    /\ User.inRide u = false)
    /\ (exists j d, Ride.driver ride = Some j /\ drivers s !! j = Some d
                    /\ Driver.isAvailable d = true)
    /\ (exists pick, Ride.pickUp ride = Some pick /\ pick ∈ locations s)
    /\ (exists drop, Ride.dropOff ride = Some drop /\ drop ∈ locations s).
Proof.
  intros Hloc Hus Hds Hrnd.
  destruct (generateRides_body_run s Hloc Hus Hds Hrnd)
    as (ride & i & j & u & d & pick & drop & E & Hst & Hi & Hu & Hfree & Hj & Hd
        & Hav & Hp & Hpin & Hdr & Hdin & _).
  exists ride. eexists. split; [exact E|].
  split; [exact Hst|]. split; [by exists i, u|]. split; [by exists j, d|].
  split; [by exists pick | by exists drop].
Qed.

Lemma generateRides_body_selects_witness :
  exists ride line,
    RideSharingApp.generateRides_body (ready [seed_u1] [fresh_driver])
    = (Normal 0%nat,
       set_console [line]
         (set_rides [ride] (set_drawn 6 (ready [seed_u1] [fresh_driver]))))
    /\ Ride.status ride = "requested"
    /\ (exists i u, Ride.user ride = Some i /\ [seed_u1] !! i = Some u
                    /\ User.inRide u = false)
    /\ (exists j d, Ride.driver ride = Some j /\ [fresh_driver] !! j = Some d
                    /\ Driver.isAvailable d = true)
    /\ (exists pick, Ride.pickUp ride = Some pick /\ pick ∈ locations_seed)
    /\ (exists drop, Ride.dropOff ride = Some drop /\ drop ∈ locations_seed).
Proof.
  apply (generateRides_body_selects (ready [seed_u1] [fresh_driver])).
  - discriminate.
  - discriminate.
  - discriminate.
  - intros k _. exact unit_interval_49.
Defined.

(** X6.  When every rider is in a ride (and the three lists are not
    empty), one turn of [generateRides] pushes a ride without a rider and
    then fails where it reads [user.name]: the TypeError leaves the ride
    in the registry and the six draws consumed, and no line is written. *)
Theorem generateRides_body_no_free_rider s :
  locations s <> [] -> users s <> [] -> drivers s <> [] ->
  RideSharingApp.users_not_inRide (users s) = [] ->
  exists ride,
    RideSharingApp.generateRides_body s
    = (Throw (cannot_read "name"),
       set_rides (rides s ++ [ride]) (set_drawn (drawn s + 6) s))
    /\ Ride.user ride = None /\ Ride.status ride = "requested".
Proof.
  intros Hloc Hus Hds Hnone.
  assert (Hguard : (length (locations s) =? 0)%nat || (length (users s) =? 0)%nat
                   || (length (drivers s) =? 0)%nat = false).
  { destruct (locations s), (users s), (drivers s); done. }
  eexists. split.
  - unfold RideSharingApp.generateRides_body. unfold bind at 1, get at 1.
    rewrite Hguard, Hnone.
    erewrite bind_Normal by apply randomIndexMethod_run.
    erewrite bind_Normal by apply randomIndexMethod_run.
    erewrite bind_Normal by apply randomIndexMethod_run.
    erewrite bind_Normal by apply randomIndexMethod_run.
    erewrite bind_Normal by apply rideRequest_run.
    rewrite index_nil.
    unfold readUser, modify, bind, get, throw. simpl.
    f_equal. apply State_ext; simpl; try reflexivity. lia.
  - split; reflexivity.
Qed.

Lemma generateRides_body_no_free_rider_witness :
  exists ride,
    RideSharingApp.generateRides_body (ready [busy_rider] [fresh_driver])
    = (Throw (cannot_read "name"),
       set_rides [ride] (set_drawn 6 (ready [busy_rider] [fresh_driver])))
    /\ Ride.user ride = None /\ Ride.status ride = "requested".
Proof.
  apply (generateRides_body_no_free_rider (ready [busy_rider] [fresh_driver]));
    [discriminate | discriminate | discriminate | reflexivity].
Defined.

(** ** The loop body *)

Lemma addPoints_inRide p em u :
  User.inRide (fst (User.addPoints p em u)) = User.inRide u.
Proof.
  unfold User.addPoints, User.checkForUpgrade, User.upgradeToPremium.
  simpl. destruct (_ && _); reflexivity.
Qed.

Lemma addPoints_paymentDetails p em u :
  User.paymentDetails (fst (User.addPoints p em u)) = User.paymentDetails u.
Proof.
  unfold User.addPoints, User.checkForUpgrade, User.upgradeToPremium.
  simpl. destruct (_ && _); reflexivity.
Qed.

Lemma addRaiting_profit r em d :
  Driver.profit (fst (Driver.addRaiting r em d)) = Driver.profit d.
Proof.
  unfold Driver.addRaiting, Driver.checkForUpgrade, Driver.upgradetoVIP,
    Driver.downgradeToRegular.
  destruct (num_eq _ _); simpl; repeat (destruct (_ && _); simpl); reflexivity.
Qed.

Lemma addRaiting_isAvailable r em d :
  Driver.isAvailable (fst (Driver.addRaiting r em d)) = Driver.isAvailable d.
Proof.
  unfold Driver.addRaiting, Driver.checkForUpgrade, Driver.upgradetoVIP,
    Driver.downgradeToRegular.
  destruct (num_eq _ _); simpl; repeat (destruct (_ && _); simpl); reflexivity.
Qed.

Lemma processRide_accepted s ride r i j u d :
  rides s !! ride = Some r -> Ride.user r = Some i -> Ride.driver r = Some j ->
  users s !! i = Some u -> drivers s !! j = Some d ->
  Driver.isVIP d = false ->
  PaymentService.validatePayment (User.paymentDetails u) (Ride.fare r) = true ->
  RideSharingApp.processRide ride s = (Normal tt, accepted ride i j r u d s).
Proof.
  intros Hr Hi Hj Hu Hd Hvip Hv.
  unfold RideSharingApp.processRide. unfold bind at 1.
  rewrite (payment_run s ride r i j u d Hr Hi Hj Hu Hd), Hv.
  unfold RideSharingApp.callUser, RideSharingApp.rideCompleted,
    RideSharingApp.setTimeout.
  unfold readRide, readDriver, readUser, writeDriver, writeUser, writeRide,
    Math_random, emitted, log, modify, charged.
  unfold bind, get, ret.
  repeat first [ rewrite list_lookup_alter_eq | rewrite Hr | rewrite Hi
               | rewrite Hj | rewrite Hu | rewrite Hd | rewrite Hvip
               | progress simpl ].
  destruct (User.addPoints _ _ _) as [u' out] eqn:E.
  repeat first [ rewrite list_lookup_alter_eq | rewrite Hr | rewrite Hi
               | rewrite Hj | rewrite Hu | rewrite Hd | rewrite Hvip
               | progress simpl ].
  f_equal. unfold accepted. rewrite E. apply State_ext; simpl; try reflexivity.
  - rewrite (alter_alter_const _ _ _ _ (debit (Ride.fare r) u)).
    + by apply alter_alter_const with u.
    + by rewrite list_lookup_alter_eq, Hu.
  - rewrite list_alter_alter_eq. by apply alter_ext_at with d.
  - by rewrite <- !app_assoc.
Qed.

(** X7.  The loop body on a ride whose rider can pay and whose driver is
    not VIP: it returns, the ride is "active", the rider is in the ride,
    has paid the fare and earned the distance in points, the driver is
    unavailable and has the fare as profit, one draw is consumed and the
    completion timer is armed for [distance * 100] ms from now; every
    other rider, driver and ride is as before. *)
Theorem processRide_accepts s ride r i j u d :
  rides s !! ride = Some r -> Ride.user r = Some i -> Ride.driver r = Some j ->
  users s !! i = Some u -> drivers s !! j = Some d ->
  Driver.isVIP d = false ->
  PaymentService.validatePayment (User.paymentDetails u) (Ride.fare r) = true ->
  let s' := after (RideSharingApp.processRide ride) s in
  fst (RideSharingApp.processRide ride s) = Normal tt
  /\ rides s' !! ride = Some (Ride.set_status "active" r)
  /\ (exists u', users s' !! i = Some u'
        /\ User.inRide u' = true
        /\ balance (User.paymentDetails u')
           = (balance (User.paymentDetails u) - Ride.fare r)%Q
        /\ User.premiumPoints u' = (User.premiumPoints u + Ride.distance r)%Q)
  /\ drivers s' !! j = Some (Driver.set_isAvailable false (credit (Ride.fare r) d))
  /\ (forall k, k <> i -> users s' !! k = users s !! k)
  /\ (forall k, k <> j -> drivers s' !! k = drivers s !! k)
  /\ (forall k, k <> ride -> rides s' !! k = rides s !! k)
  /\ timers s' = RideSharingApp.insert_timer (trip_timer ride r s) (timers s)
  /\ drawn s' = S (drawn s) /\ clock s' = clock s.
Proof.
  intros Hr Hi Hj Hu Hd Hvip Hv. cbv zeta. unfold after.
  rewrite (processRide_accepted s ride r i j u d Hr Hi Hj Hu Hd Hvip Hv).
  unfold accepted. simpl.
  split; [reflexivity|]. split; [by rewrite list_lookup_alter_eq, Hr|].
  split.
  { rewrite list_lookup_alter_eq, Hu. simpl. eexists. split; [reflexivity|].
    by rewrite addPoints_inRide, addPoints_paymentDetails, addPoints_premiumPoints. }
  split; [by rewrite list_lookup_alter_eq, Hd|].
  split; [intros k Hk; by rewrite list_lookup_alter_ne|].
  split; [intros k Hk; by rewrite list_lookup_alter_ne|].
  split; [intros k Hk; by rewrite list_lookup_alter_ne|].
  done.
Qed.

Lemma processRide_accepts_witness :
  let s := booked [seed_u1] [fresh_driver] in
  let s' := after (RideSharingApp.processRide 0) s in
  fst (RideSharingApp.processRide 0 s) = Normal tt
  /\ rides s' !! 0%nat = Some (Ride.set_status "active" seed_ride)
  /\ (exists u', users s' !! 0%nat = Some u'
        /\ User.inRide u' = true
        /\ balance (User.paymentDetails u')
           = (balance (User.paymentDetails seed_u1) - Ride.fare seed_ride)%Q
        /\ User.premiumPoints u'
           = (User.premiumPoints seed_u1 + Ride.distance seed_ride)%Q)
  /\ drivers s' !! 0%nat
     = Some (Driver.set_isAvailable false (credit (Ride.fare seed_ride) fresh_driver))
  /\ (forall k, k <> 0%nat -> users s' !! k = users s !! k)
  /\ (forall k, k <> 0%nat -> drivers s' !! k = drivers s !! k)
  /\ (forall k, k <> 0%nat -> rides s' !! k = rides s !! k)
  /\ timers s' = RideSharingApp.insert_timer (trip_timer 0 seed_ride s) (timers s)
  /\ drawn s' = S (drawn s) /\ clock s' = clock s.
Proof.
  apply (processRide_accepts (booked [seed_u1] [fresh_driver]) 0 seed_ride 0 0
           seed_u1 fresh_driver); vm_compute; reflexivity.
Defined.

(** X8.  The loop body on a ride whose rider cannot pay and whose driver
    is not VIP: it returns having written two lines, the failed payment
    and the driver's denial, and changed nothing else: no money moves, the
    ride stays "requested", rider and driver stay free, no timer. *)
Theorem processRide_payment_denied s ride r i j u d :
  rides s !! ride = Some r -> Ride.user r = Some i -> Ride.driver r = Some j ->
  users s !! i = Some u -> drivers s !! j = Some d ->
  Driver.isVIP d = false ->
  PaymentService.validatePayment (User.paymentDetails u) (Ride.fare r) = false ->
  RideSharingApp.processRide ride s = (Normal tt, payment_denied u d s).
Proof.
  intros Hr Hi Hj Hu Hd Hvip Hv.
  unfold RideSharingApp.processRide. unfold bind at 1.
  rewrite (payment_run s ride r i j u d Hr Hi Hj Hu Hd), Hv.
  unfold readRide, readDriver, readUser, log, modify.
  unfold bind, get, ret.
  repeat first [ rewrite Hr | rewrite Hi | rewrite Hj | rewrite Hu | rewrite Hd
               | rewrite Hvip | progress simpl ].
  f_equal. unfold payment_denied. apply State_ext; simpl; try reflexivity.
  by rewrite <- app_assoc.
Qed.

Lemma processRide_payment_denied_witness :
  RideSharingApp.processRide 0 (booked [standard_rider 50] [fresh_driver])
  = (Normal tt,
     payment_denied (standard_rider 50) fresh_driver
       (booked [standard_rider 50] [fresh_driver])).
Proof.
  apply (processRide_payment_denied (booked [standard_rider 50] [fresh_driver])
           0 seed_ride 0 0 (standard_rider 50) fresh_driver);
    vm_compute; reflexivity.
Defined.

(** X9.  The loop body on a ride without a driver (no driver was
    available when it was generated) always throws.  If the rider can
    pay, [processPayment] has already taken the fare from the balance
    when [driver.profit] fails, and nobody receives it; if the rider
    cannot pay, the failure is written and [driver.isVIP] fails. *)
Theorem processRide_without_driver s ride r i u :
  rides s !! ride = Some r -> Ride.user r = Some i -> users s !! i = Some u ->
  Ride.driver r = None ->
  RideSharingApp.processRide ride s =
  if PaymentService.validatePayment (User.paymentDetails u) (Ride.fare r)
  then (Throw (cannot_read "profit"),
        set_users (alter (debit (Ride.fare r)) i (users s)) s)
  else (Throw (cannot_read "isVIP"),
        set_console
          (console s ++ [console_log [Lit (User.name u); Lit " failed to pay!"]]) s).
Proof.
  intros Hr Hi Hu Hd.
  unfold RideSharingApp.processRide, RideSharingApp.payment,
    PaymentService.processPayment.
  unfold readRide, readUser, writeUser, readDriver, log, modify.
  unfold bind, get, ret, throw.
  rewrite Hr. simpl. rewrite Hi. simpl. rewrite Hu. simpl.
  destruct (PaymentService.validatePayment _ _).
  - rewrite Hu. simpl. rewrite Hu. simpl. rewrite Hd. simpl.
    f_equal. f_equal. by apply alter_ext_at with u.
  - rewrite Hu. simpl. rewrite Hr. simpl. rewrite Hd. reflexivity.
Qed.

Lemma processRide_without_driver_witness :
  RideSharingApp.processRide 0 (booked [seed_u1] [busy_driver])
  = (Throw (cannot_read "profit"),
     set_users [debit 100 seed_u1] (booked [seed_u1] [busy_driver])).
Proof.
  rewrite (processRide_without_driver (booked [seed_u1] [busy_driver]) 0
             seed_ride_no_driver 0 seed_u1);
    vm_compute; reflexivity.
Defined.

(** X10.  [payment] on a ride without a rider throws where it reads
    [user.paymentDetails], before anything is changed or written. *)
Theorem payment_without_rider ride r s :
  rides s !! ride = Some r -> Ride.user r = None ->
  RideSharingApp.payment ride s = (Throw (cannot_read "paymentDetails"), s).
Proof.
  intros Hr Hu.
  unfold RideSharingApp.payment, readRide, readUser, bind, get, ret, throw.
  rewrite Hr. simpl. rewrite Hu. reflexivity.
Qed.

Lemma payment_without_rider_witness :
  RideSharingApp.payment 0 (booked [busy_rider] [fresh_driver])
  = (Throw (cannot_read "paymentDetails"), booked [busy_rider] [fresh_driver]).
Proof.
  apply (payment_without_rider 0
           (requested_ride (Some "Location 6") (Some "Location 6") None (Some 0%nat)
              (49 # 100) (49 # 100))
           (booked [busy_rider] [fresh_driver]));
    vm_compute; reflexivity.
Defined.

(** ** The completion of a trip *)

Lemma rideCompleted_callback_run s t r i j u d :
  rides s !! timer_ride t = Some r -> Ride.user r = Some i -> Ride.driver r = Some j ->
  users s !! i = Some u -> drivers s !! j = Some d ->
  RideSharingApp.rideCompleted_callback t s = (Normal tt, completed t i j u d s).
Proof.
  intros Hr Hi Hj Hu Hd.
  unfold RideSharingApp.rideCompleted_callback, RideSharingApp.callDriver.
  unfold readRide, readDriver, readUser, writeDriver, writeUser, writeRide,
    emitted, log, modify.
  unfold bind, get, ret.
  repeat first [ rewrite list_lookup_alter_eq | rewrite Hr | rewrite Hi
               | rewrite Hj | rewrite Hu | rewrite Hd | progress simpl ].
  destruct (Driver.addRaiting _ _ _) as [d' out] eqn:E.
  repeat first [ rewrite list_lookup_alter_eq | rewrite Hr | rewrite Hi
               | rewrite Hj | rewrite Hu | rewrite Hd | progress simpl ].
  f_equal. unfold completed. rewrite E. apply State_ext; simpl; try reflexivity.
  by apply alter_alter_const with d.
Qed.

(** X11.  The callback that [rideCompleted] hands to [setTimeout], run on
    a ride with rider and driver: it returns, the ride is "completed",
    the rider is out of the ride and otherwise as before, the driver is
    available again and has received the rating drawn when the ride was
    accepted; profit, balances and every other object are as before. *)
Theorem rideCompleted_callback_completes s t r i j u d :
  rides s !! timer_ride t = Some r -> Ride.user r = Some i -> Ride.driver r = Some j ->
  users s !! i = Some u -> drivers s !! j = Some d ->
  let s' := after (RideSharingApp.rideCompleted_callback t) s in
  fst (RideSharingApp.rideCompleted_callback t s) = Normal tt
  /\ rides s' !! timer_ride t = Some (Ride.set_status "completed" r)
  /\ users s' !! i = Some (User.set_inRide false u)
  /\ (exists d', drivers s' !! j = Some d'
        /\ d' = fst (Driver.addRaiting (timer_raiting t) (eventEmitter s)
                       (Driver.set_isAvailable true d))
        /\ Driver.isAvailable d' = true
        /\ Driver.profit d' = Driver.profit d)
  /\ (forall k, k <> i -> users s' !! k = users s !! k)
  /\ (forall k, k <> j -> drivers s' !! k = drivers s !! k)
  /\ (forall k, k <> timer_ride t -> rides s' !! k = rides s !! k)
  /\ timers s' = timers s /\ drawn s' = drawn s /\ clock s' = clock s.
Proof.
  intros Hr Hi Hj Hu Hd. cbv zeta. unfold after.
  rewrite (rideCompleted_callback_run s t r i j u d Hr Hi Hj Hu Hd).
  unfold completed. simpl.
  split; [reflexivity|]. split; [by rewrite list_lookup_alter_eq, Hr|].
  split; [by rewrite list_lookup_alter_eq, Hu|].
  split.
  { rewrite list_lookup_alter_eq, Hd. simpl. eexists. split; [reflexivity|].
    by rewrite addRaiting_isAvailable, addRaiting_profit. }
  split; [intros k Hk; by rewrite list_lookup_alter_ne|].
  split; [intros k Hk; by rewrite list_lookup_alter_ne|].
  split; [intros k Hk; by rewrite list_lookup_alter_ne|].
  done.
Qed.

Lemma rideCompleted_callback_completes_witness :
  let s := riding in
  let t := trip_timer 0 seed_ride (booked [seed_u1] [fresh_driver]) in
  let s' := after (RideSharingApp.rideCompleted_callback t) s in
  fst (RideSharingApp.rideCompleted_callback t s) = Normal tt
  /\ rides s' !! timer_ride t
     = Some (Ride.set_status "completed" (Ride.set_status "active" seed_ride))
  /\ users s' !! 0%nat = Some (User.set_inRide false seed_u1_riding)
  /\ (exists d', drivers s' !! 0%nat = Some d'
        /\ d' = fst (Driver.addRaiting (timer_raiting t) (eventEmitter s)
                       (Driver.set_isAvailable true fresh_driver_riding))
        /\ Driver.isAvailable d' = true
        /\ Driver.profit d' = Driver.profit fresh_driver_riding)
  /\ (forall k, k <> 0%nat -> users s' !! k = users s !! k)
  /\ (forall k, k <> 0%nat -> drivers s' !! k = drivers s !! k)
  /\ (forall k, k <> timer_ride t -> rides s' !! k = rides s !! k)
  /\ timers s' = timers s /\ drawn s' = drawn s /\ clock s' = clock s.
Proof.
  apply (rideCompleted_callback_completes riding
           (trip_timer 0 seed_ride (booked [seed_u1] [fresh_driver]))
           (Ride.set_status "active" seed_ride) 0 0
           seed_u1_riding fresh_driver_riding);
    vm_compute; reflexivity.
Defined.

Lemma sleep_idle d s :
  timers s = [] -> RideSharingApp.sleep d s = (Normal tt, set_clock (clock s + d)%Q s).
Proof.
  intros H. unfold RideSharingApp.sleep, bind, get, modify, ret. rewrite H. simpl.
  f_equal. apply State_ext; simpl; try reflexivity. by rewrite H.
Qed.

Lemma settle_accepted s ride r i j u d :
  rides s !! ride = Some r -> Ride.user r = Some i -> Ride.driver r = Some j ->
  users s !! i = Some u -> drivers s !! j = Some d ->
  timers s = [] ->
  settle (accepted ride i j r u d s) = (Normal tt, settled ride i j r u d s).
Proof.
  intros Hr Hi Hj Hu Hd Ht.
  unfold settle. unfold bind at 1, get at 1.
  erewrite bind_Normal by reflexivity.
  replace (timers (accepted ride i j r u d s)) with [trip_timer ride r s]
    by (unfold accepted; simpl; by rewrite Ht).
  simpl RideSharingApp.runTimers.
  erewrite bind_Normal.
  2:{ apply rideCompleted_callback_run with (r := Ride.set_status "active" r).
      - simpl. by rewrite list_lookup_alter_eq, Hr.
      - exact Hi.
      - exact Hj.
      - simpl. by rewrite list_lookup_alter_eq, Hu.
      - simpl. by rewrite list_lookup_alter_eq, Hd. }
  reflexivity.
Qed.

Lemma settled_facts s ride r i j u d :
  rides s !! ride = Some r -> users s !! i = Some u -> drivers s !! j = Some d ->
  let s' := settled ride i j r u d s in
  (Ride.status <$> rides s' !! ride) = Some "completed"
  /\ (exists u', users s' !! i = Some u'
        /\ User.inRide u' = false
        /\ balance (User.paymentDetails u')
           = (balance (User.paymentDetails u) - Ride.fare r)%Q
        /\ User.premiumPoints u' = (User.premiumPoints u + Ride.distance r)%Q)
  /\ (exists d', drivers s' !! j = Some d'
        /\ Driver.isAvailable d' = true
        /\ Driver.profit d' = (Driver.profit d + Ride.fare r)%Q
        /\ d' = fst (Driver.addRaiting
                       (inject_Z (Math_floor (entropy s (drawn s) * 5)) + 1)
                       (eventEmitter s)
                       (Driver.set_isAvailable true (credit (Ride.fare r) d))))
  /\ (forall k, k <> i -> users s' !! k = users s !! k)
  /\ (forall k, k <> j -> drivers s' !! k = drivers s !! k)
  /\ (forall k, k <> ride -> rides s' !! k = rides s !! k)
  /\ timers s' = [].
Proof.
  intros Hr Hu Hd. cbv zeta. unfold settled. simpl.
  split; [|split; [|split; [|split; [|split; [|split]]]]].
  - rewrite !list_lookup_alter_eq, Hr. reflexivity.
  - rewrite !list_lookup_alter_eq, Hu. simpl. eexists. split; [reflexivity|].
    simpl. by rewrite addPoints_paymentDetails, addPoints_premiumPoints.
  - rewrite !list_lookup_alter_eq, Hd. simpl. eexists. split; [reflexivity|].
    by rewrite addRaiting_isAvailable, addRaiting_profit.
  - intros k Hk. by rewrite !list_lookup_alter_ne.
  - intros k Hk. by rewrite !list_lookup_alter_ne.
  - intros k Hk. by rewrite !list_lookup_alter_ne.
  - reflexivity.
Qed.

(** X12.  Acceptance and completion compose to a round trip: after the
    loop body has accepted a ride and its timer has fired, the ride is
    "completed", rider and driver are free again, the rider has paid the
    fare exactly once and earned the distance in points, the driver has
    the fare as profit and the rating, no timer is pending, and every
    other rider, driver and ride is as before. *)
Theorem accepted_trip_completes s ride r i j u d :
  rides s !! ride = Some r -> Ride.user r = Some i -> Ride.driver r = Some j ->
  users s !! i = Some u -> drivers s !! j = Some d ->
  Driver.isVIP d = false ->
  PaymentService.validatePayment (User.paymentDetails u) (Ride.fare r) = true ->
  timers s = [] ->
  let run := RideSharingApp.processRide ride ;; settle in
  let s' := after run s in
  fst (run s) = Normal tt
  /\ (Ride.status <$> rides s' !! ride) = Some "completed"
  /\ (exists u', users s' !! i = Some u'
        /\ User.inRide u' = false
        /\ balance (User.paymentDetails u')
           = (balance (User.paymentDetails u) - Ride.fare r)%Q
        /\ User.premiumPoints u' = (User.premiumPoints u + Ride.distance r)%Q)
  /\ (exists d', drivers s' !! j = Some d'
        /\ Driver.isAvailable d' = true
        /\ Driver.profit d' = (Driver.profit d + Ride.fare r)%Q
        /\ d' = fst (Driver.addRaiting
                       (inject_Z (Math_floor (entropy s (drawn s) * 5)) + 1)
                       (eventEmitter s)
                       (Driver.set_isAvailable true (credit (Ride.fare r) d))))
  /\ (forall k, k <> i -> users s' !! k = users s !! k)
  /\ (forall k, k <> j -> drivers s' !! k = drivers s !! k)
  /\ (forall k, k <> ride -> rides s' !! k = rides s !! k)
  /\ timers s' = [].
Proof.
  intros Hr Hi Hj Hu Hd Hvip Hv Ht. cbv zeta. unfold after.
  erewrite bind_Normal; [|by apply processRide_accepted].
  rewrite (settle_accepted s ride r i j u d Hr Hi Hj Hu Hd Ht).
  split; [reflexivity|]. by apply settled_facts.
Qed.

Lemma accepted_trip_completes_witness :
  let s := booked [seed_u1] [fresh_driver] in
  let run := RideSharingApp.processRide 0 ;; settle in
  let s' := after run s in
  fst (run s) = Normal tt
  /\ (Ride.status <$> rides s' !! 0%nat) = Some "completed"
  /\ (exists u', users s' !! 0%nat = Some u'
        /\ User.inRide u' = false
        /\ balance (User.paymentDetails u')
           = (balance (User.paymentDetails seed_u1) - Ride.fare seed_ride)%Q
        /\ User.premiumPoints u'
           = (User.premiumPoints seed_u1 + Ride.distance seed_ride)%Q)
  /\ (exists d', drivers s' !! 0%nat = Some d'
        /\ Driver.isAvailable d' = true
        /\ Driver.profit d' = (Driver.profit fresh_driver + Ride.fare seed_ride)%Q
        /\ d' = fst (Driver.addRaiting
                       (inject_Z (Math_floor (entropy s (drawn s) * 5)) + 1)
                       (eventEmitter s)
                       (Driver.set_isAvailable true
                          (credit (Ride.fare seed_ride) fresh_driver))))
  /\ (forall k, k <> 0%nat -> users s' !! k = users s !! k)
  /\ (forall k, k <> 0%nat -> drivers s' !! k = drivers s !! k)
  /\ (forall k, k <> 0%nat -> rides s' !! k = rides s !! k)
  /\ timers s' = [].
Proof.
  apply (accepted_trip_completes (booked [seed_u1] [fresh_driver]) 0 seed_ride
           0 0 seed_u1 fresh_driver);
    vm_compute; reflexivity.
Defined.

(** X13.  End to end, for one rider who is not in a ride and can pay any
    fare (16-digit card, expiry above 20, balance at least 200), one
    fetched driver, at least one location and draws in [0, 1):
    [startApp(1)] followed by the pending timer returns without an error,
    and leaves exactly one ride, "completed", of the rider with the
    driver, with a distance from 1 to 100 and twice that as fare; the
    rider is free, has paid the fare and earned the distance in points,
    the driver is available and has the fare as profit; no timer is
    left. *)
Theorem single_trip_completes rider locs rnd status id name :
  locs <> [] ->
  User.inRide rider = false ->
  has_digits 16 (cardNumber (User.paymentDetails rider)) ->
  (20 < expirationDate (User.paymentDetails rider))%Q ->
  (200 <= balance (User.paymentDetails rider))%Q ->
  (forall k, (k < 6)%nat -> unit_interval (rnd k)) ->
  let run := RideSharingApp.startApp (FetchResponse true status (inr [(id, name)]))
               (JsNum 1) ;; settle in
  let s' := after run (RideSharingApp.new [rider] locs rnd) in
  fst (run (RideSharingApp.new [rider] locs rnd)) = Normal tt
  /\ timers s' = []
  /\ exists ride u' d',
       rides s' = [ride] /\ users s' = [u'] /\ drivers s' = [d']
       /\ Ride.status ride = "completed"
       /\ Ride.user ride = Some 0%nat /\ Ride.driver ride = Some 0%nat
       /\ (exists k : Z, (1 <= k <= 100)%Z /\ (Ride.distance ride == inject_Z k)%Q)
       /\ Ride.fare ride = (Ride.distance ride * 2)%Q
       /\ User.inRide u' = false
       /\ balance (User.paymentDetails u')
          = (balance (User.paymentDetails rider) - Ride.fare ride)%Q
       /\ User.premiumPoints u' = (User.premiumPoints rider + Ride.distance ride)%Q
       /\ Driver.isAvailable d' = true
       /\ Driver.profit d' = (0 + Ride.fare ride)%Q.
Proof.
  intros Hlocs Hfree Hcard Hexp Hbal Hrnd. cbv zeta.
  set (s0 := RideSharingApp.new [rider] locs rnd).
  set (d0 := Driver.new id name 0 true).
  set (sa := set_drivers [d0]
               (set_console [console_log [Lit "App started successfully!"]] s0)).
  destruct (generateRides_body_run sa) as
    (ride & i & j & u & d & pick & drop & Egen & Hst & Hru & Hu & _ & Hrd & Hd & _
     & _ & _ & _ & _ & Hdist & Hfare & _).
  { exact Hlocs. }
  { unfold RideSharingApp.users_not_inRide. simpl. by rewrite Hfree. }
  { done. }
  { intros k Hk. apply (Hrnd k). lia. }
  assert (i = 0%nat /\ u = rider) as [-> ->].
  { destruct i; simpl in Hu; [by injection Hu | done]. }
  assert (j = 0%nat /\ d = d0) as [-> ->].
  { destruct j; simpl in Hd; [by injection Hd | done]. }
  set (sb := set_console
               (console sa ++
                [console_log [Lit (User.name rider); Lit " has requested a ride from ";
                              Lit pick; Lit " to "; Lit drop; Lit "!"]])
               (set_rides (rides sa ++ [ride]) (set_drawn (drawn sa + 6) sa))) in *.
  set (sc := set_clock (clock sb + 2000)%Q sb).
  assert (Hvalid : PaymentService.validatePayment (User.paymentDetails rider)
                     (Ride.fare ride) = true).
  { apply validatePayment_iff. split; [done|]. split; [done|].
    destruct Hdist as (k & Hk & Ek). rewrite Hfare, Ek.
    assert (inject_Z k <= 100)%Q by (rewrite (Zle_Qle k 100) in Hk; tauto).
    lra. }
  assert (Eaccept : RideSharingApp.processRide 0 sc
                    = (Normal tt, accepted 0 0 0 ride rider d0 sc)).
  { apply processRide_accepted; done. }
  assert (Estart :
    RideSharingApp.startApp (FetchResponse true status (inr [(id, name)])) (JsNum 1) s0
    = (Normal tt, accepted 0 0 0 ride rider d0 sc)).
  { unfold RideSharingApp.startApp, try_catch, RideSharingApp.processMultipleRides.
    change (negb (typeof (JsNum 1) =? "number")) with false. cbv iota.
    change (RideSharingApp.iterations 1) with 1%nat.
    erewrite bind_Normal by reflexivity.
    erewrite bind_Normal by reflexivity.
    simpl RideSharingApp.forAwait.
    erewrite bind_Normal; [|exact Egen].
    erewrite bind_Normal; [|by apply sleep_idle].
    erewrite bind_Normal; [|exact Eaccept].
    reflexivity. }
  assert (Erun :
    (RideSharingApp.startApp (FetchResponse true status (inr [(id, name)])) (JsNum 1)
     ;; settle) s0
    = (Normal tt, settled 0 0 0 ride rider d0 sc)).
  { erewrite bind_Normal; [|exact Estart]. by apply settle_accepted. }
  unfold after. rewrite Erun.
  split; [reflexivity|]. split; [reflexivity|].
  destruct (settled_facts sc 0 ride 0 0 rider d0)
    as (Hs & (u' & Hu' & Hin & Hb & Hp) & (d' & Hd' & Hav & Hpr & _) & _); try done.
  exists (Ride.set_status "completed" (Ride.set_status "active" ride)), u', d'.
  simpl in Hu', Hd'. injection Hu' as <-. injection Hd' as <-.
  repeat split; try done.
Qed.

Lemma single_trip_completes_witness :
  let run := RideSharingApp.startApp one_driver (JsNum 1) ;; settle in
  let s' := after run (RideSharingApp.new [seed_u1] locations_seed (fun _ => 49 # 100)) in
  fst (run (RideSharingApp.new [seed_u1] locations_seed (fun _ => 49 # 100))) = Normal tt
  /\ timers s' = []
  /\ exists ride u' d',
       rides s' = [ride] /\ users s' = [u'] /\ drivers s' = [d']
       /\ Ride.status ride = "completed"
       /\ Ride.user ride = Some 0%nat /\ Ride.driver ride = Some 0%nat
       /\ (exists k : Z, (1 <= k <= 100)%Z /\ (Ride.distance ride == inject_Z k)%Q)
       /\ Ride.fare ride = (Ride.distance ride * 2)%Q
       /\ User.inRide u' = false
       /\ balance (User.paymentDetails u')
          = (balance (User.paymentDetails seed_u1) - Ride.fare ride)%Q
       /\ User.premiumPoints u' = (User.premiumPoints seed_u1 + Ride.distance ride)%Q
       /\ Driver.isAvailable d' = true
       /\ Driver.profit d' = (0 + Ride.fare ride)%Q.
Proof.
  apply (single_trip_completes seed_u1 locations_seed (fun _ => 49 # 100)
           200 1 "Leanne Graham").
  - discriminate.
  - reflexivity.
  - exact seed_card_16.
  - reflexivity.
  - discriminate.
  - intros k _. exact unit_interval_49.
Defined.

(** ** Money is conserved *)

Section Ensures.
Variable I : State -> Prop.

Lemma ensures_ret {A} (a : A) : ensures I (ret a).
Proof. intros s H a' s' [= _ <-]. exact H. Qed.

Lemma ensures_throw {A} e : ensures I (@throw A e).
Proof. intros s H a s' [=]. Qed.

Lemma ensures_get : ensures I get.
Proof. intros s H a s' [= _ <-]. exact H. Qed.

Lemma ensures_modify f : (forall s, I s -> I (f s)) -> ensures I (modify f).
Proof. intros Hf s H a s' [= _ <-]. by apply Hf. Qed.

Lemma ensures_bind {A B} (m : M A) (k : A -> M B) :
  ensures I m -> (forall a, ensures I (k a)) -> ensures I (bind m k).
Proof.
  intros Hm Hk s H b s'. unfold bind.
  destruct (m s) as [[a|e] s1] eqn:E; [|done].
  intros Ek. exact (Hk a s1 (Hm s H a s1 E) b s' Ek).
Qed.

Lemma preserves_ensures {A} (m : M A) : preserves I m -> ensures I m.
Proof. intros Hm s H a s' E. specialize (Hm s H). by rewrite E in Hm. Qed.
End Ensures.

Ltac ensure_step :=
  lazymatch goal with
  | |- ensures _ (ret _) => apply ensures_ret
  | |- ensures _ (throw _) => apply ensures_throw
  | |- ensures _ get => apply ensures_get
  | |- ensures _ (bind _ _) => apply ensures_bind; [| intros ?]
  | |- ensures _ (modify _) => apply ensures_modify; intros ? ?
  | |- ensures _ (readUser _ _) => apply preserves_ensures, readUser_preserves
  | |- ensures _ (readDriver _ _) => apply preserves_ensures, readDriver_preserves
  | |- ensures _ (readRide _) => apply preserves_ensures, readRide_preserves
  | |- ensures _ (if ?b then _ else _) => destruct b
  | |- ensures _ (match ?x with _ => _ end) => destruct x eqn:?
  end.

Lemma sumQ_alter {A} (f : A -> Q) (g : A -> A) i (l : list A) x :
  l !! i = Some x ->
  (sumQ (map f (alter g i l)) == sumQ (map f l) - f x + f (g x))%Q.
Proof.
  revert i. induction l as [|y l IH]; intros [|i] Hx; simpl in *; try done.
  - injection Hx as ->. ring.
  - rewrite (IH i Hx). ring.
Qed.

Lemma map_alter_same {A B} (f : A -> B) (g : A -> A) i (l : list A) :
  (forall x, l !! i = Some x -> f (g x) = f x) -> map f (alter g i l) = map f l.
Proof.
  revert i. induction l as [|y l IH]; intros [|i] H; simpl; try done.
  - f_equal. by apply H.
  - f_equal. apply IH. intros x Hx. by apply H.
Qed.

Lemma money_charged s i j u d fare :
  users s !! i = Some u -> drivers s !! j = Some d ->
  (money (charged i j fare s) == money s)%Q.
Proof.
  intros Hu Hd. unfold money, charged. simpl.
  rewrite (sumQ_alter _ _ _ _ u Hu), (sumQ_alter _ _ _ _ d Hd). simpl. ring.
Qed.

Section Conservation.
Variable c : Q.

Lemma writeUser_conserved prop ref g :
  (forall u, User.paymentDetails (g u) = User.paymentDetails u) ->
  ensures (conserved c) (writeUser prop ref g).
Proof.
  intros Hg. unfold writeUser. repeat ensure_step.
  unfold conserved, money in *. simpl.
  rewrite map_alter_same; [done|]. intros x _. by rewrite Hg.
Qed.

Lemma writeDriver_conserved prop ref g :
  (forall d, Driver.profit (g d) = Driver.profit d) ->
  ensures (conserved c) (writeDriver prop ref g).
Proof.
  intros Hg. unfold writeDriver. repeat ensure_step.
  unfold conserved, money in *. simpl.
  rewrite map_alter_same; [done|]. intros x _. by rewrite Hg.
Qed.

(** [processPayment] returns only when rider and driver exist, and then
    what the rider loses the driver gains. *)
Lemma processPayment_conserved user fare driver :
  ensures (conserved c) (PaymentService.processPayment user fare driver).
Proof.
  intros s H a s' E.
  destruct user as [i|]; [|discriminate E].
  destruct (users s !! i) as [u|] eqn:Hu;
    [|unfold PaymentService.processPayment, readUser, bind, get in E;
      simpl in E; rewrite Hu in E; discriminate E].
  destruct driver as [j|];
    [|unfold PaymentService.processPayment, readUser, writeUser, readDriver,
        bind, get, modify, ret in E;
      simpl in E; rewrite Hu in E; simpl in E; rewrite Hu in E; discriminate E].
  destruct (drivers s !! j) as [d|] eqn:Hd;
    [|unfold PaymentService.processPayment, readUser, writeUser, readDriver,
        bind, get, modify, ret in E;
      simpl in E; rewrite Hu in E; simpl in E; rewrite Hu in E; simpl in E;
      rewrite Hd in E; discriminate E].
  rewrite (processPayment_run s i j u d fare Hu Hd) in E.
  injection E as E. subst s'. unfold conserved in *.
  etransitivity; [exact (money_charged s i j u d fare Hu Hd) | exact H].
Qed.

Lemma Math_random_conserved : ensures (conserved c) Math_random.
Proof. intros s H a s' [= _ <-]. exact H. Qed.

Lemma callUser_addPoints_conserved prop ref p :
  ensures (conserved c) (RideSharingApp.callUser prop ref (User.addPoints p)).
Proof.
  intros s H a s' E.
  unfold RideSharingApp.callUser, readUser, writeUser, emitted, bind, get,
    modify, ret, throw in E.
  destruct ref as [i|]; [|discriminate E]. simpl in E.
  destruct (users s !! i) as [u|] eqn:Hu; [|discriminate E].
  destruct (User.addPoints p (eventEmitter s) u) as [u' out] eqn:Ha.
  simpl in E. rewrite Hu in E. simpl in E.
  injection E as E. subst s'.
  unfold conserved, money in *. simpl.
  rewrite map_alter_same; [done|]. intros x Hx.
  replace u' with (fst (User.addPoints p (eventEmitter s) u)) by (by rewrite Ha).
  rewrite addPoints_paymentDetails. congruence.
Qed.

Lemma callDriver_addRaiting_conserved prop ref r :
  ensures (conserved c) (RideSharingApp.callDriver prop ref (Driver.addRaiting r)).
Proof.
  intros s H a s' E.
  unfold RideSharingApp.callDriver, readDriver, writeDriver, emitted, bind, get,
    modify, ret, throw in E.
  destruct ref as [i|]; [|discriminate E]. simpl in E.
  destruct (drivers s !! i) as [d|] eqn:Hd; [|discriminate E].
  destruct (Driver.addRaiting r (eventEmitter s) d) as [d' out] eqn:Ha.
  simpl in E. rewrite Hd in E. simpl in E.
  injection E as E. subst s'.
  unfold conserved, money in *. simpl.
  rewrite map_alter_same; [done|]. intros x Hx.
  replace d' with (fst (Driver.addRaiting r (eventEmitter s) d)) by (by rewrite Ha).
  rewrite addRaiting_profit. congruence.
Qed.
End Conservation.

Ltac conserve_leaf :=
  lazymatch goal with
  | |- ensures _ Math_random => apply Math_random_conserved
  | |- ensures _ (PaymentService.processPayment _ _ _) =>
      apply processPayment_conserved
  | |- ensures _ (writeUser _ _ (User.set_inRide _)) =>
      apply writeUser_conserved; intros ?; reflexivity
  | |- ensures _ (writeDriver _ _ (Driver.set_isAvailable _)) =>
      apply writeDriver_conserved; intros ?; reflexivity
  | |- ensures _ (RideSharingApp.callUser _ _ (User.addPoints _)) =>
      apply callUser_addPoints_conserved
  | |- ensures _ (RideSharingApp.callDriver _ _ (Driver.addRaiting _)) =>
      apply callDriver_addRaiting_conserved
  | |- conserved _ _ => assumption
  end.

Ltac conserve := repeat first [ ensure_step | conserve_leaf ].

Lemma rideCompleted_callback_conserved c t :
  ensures (conserved c) (RideSharingApp.rideCompleted_callback t).
Proof.
  unfold RideSharingApp.rideCompleted_callback, writeRide, log. conserve.
Qed.

Lemma runTimers_conserved c ts : ensures (conserved c) (RideSharingApp.runTimers ts).
Proof.
  induction ts as [|t ts IH]; simpl; conserve; [|exact IH].
  apply rideCompleted_callback_conserved.
Qed.

Lemma forAwait_conserved c n : ensures (conserved c) (RideSharingApp.forAwait n).
Proof.
  induction n as [|n IH]; simpl; conserve.
  - unfold RideSharingApp.generateRides_body, RideFactory.rideRequest,
      RideSharingApp.randomIndexMethod, log.
    conserve.
  - unfold RideSharingApp.sleep. conserve. apply runTimers_conserved.
  - unfold RideSharingApp.processRide, RideSharingApp.payment,
      RideSharingApp.rideCompleted, RideSharingApp.setTimeout, writeRide, log.
    conserve.
  - exact IH.
Qed.

(** X14.  A batch that returns has conserved the money: the balances of
    all riders and the profits of all drivers add up to what they added
    up to before, whatever the number of rides, the draws and the
    outcome of each ride.  (A batch that throws need not: the payment
    service takes the fare before it finds that there is no driver.) *)
Theorem processMultipleRides_conserves_money numRides s s' :
  RideSharingApp.processMultipleRides numRides s = (Normal tt, s') ->
  (money s' == money s)%Q.
Proof.
  intros E.
  exact (forAwait_conserved (money s) _ s (Qeq_refl _) tt s' E).
Qed.

Lemma processMultipleRides_conserves_money_witness :
  (money (after (RideSharingApp.processMultipleRides 2) ready_seed)
   == money ready_seed)%Q.
Proof.
  apply (processMultipleRides_conserves_money 2 ready_seed
           (after (RideSharingApp.processMultipleRides 2) ready_seed)).
  vm_compute. reflexivity.
Defined.

(** X15.  The completion callback, when it returns, has not moved any
    money. *)
Theorem rideCompleted_callback_conserves_money t s s' :
  RideSharingApp.rideCompleted_callback t s = (Normal tt, s') ->
  (money s' == money s)%Q.
Proof.
  intros E.
  exact (rideCompleted_callback_conserved (money s) t s (Qeq_refl _) tt s' E).
Qed.

Lemma rideCompleted_callback_conserves_money_witness :
  let t := trip_timer 0 seed_ride (booked [seed_u1] [fresh_driver]) in
  (money (after (RideSharingApp.rideCompleted_callback t) riding) == money riding)%Q.
Proof.
  cbv zeta.
  apply (rideCompleted_callback_conserves_money
           (trip_timer 0 seed_ride (booked [seed_u1] [fresh_driver])) riding
           (after (RideSharingApp.rideCompleted_callback
                     (trip_timer 0 seed_ride (booked [seed_u1] [fresh_driver])))
                  riding)).
  vm_compute. reflexivity.
Defined.

(** ** Fetching the drivers and starting the program *)

(** X16.  [fetchDrivers] never throws.  On an [ok] response whose body
    decodes it replaces the drivers by one [new Driver(id, name, 0, true)]
    per entry, in the order of the entries, and changes nothing else.  In
    every other case it writes one [console.error] line, "Error fetching
    drivers: " with the message of the error, and changes nothing else,
    so the drivers stay: the message of the rejection when the request is
    rejected, "Error! Response staus <status>!" when the response is not
    [ok], the message of the decoding error when the body does not
    decode. *)
Theorem fetchDrivers_outcome net s :
  RideSharingApp.fetchDrivers net s =
  match net with
  | FetchRejected e =>
      (Normal tt,
       set_console
         (console s ++
          [console_error "Error fetching drivers: " (ArgMessage (message e))]) s)
  | FetchResponse false status _ =>
      (Normal tt,
       set_console
         (console s ++
          [console_error "Error fetching drivers: "
             (ArgMessage [Lit "Error! Response staus "; Num status; Lit "!"])]) s)
  | FetchResponse true _ (inl e) =>
      (Normal tt,
       set_console
         (console s ++
          [console_error "Error fetching drivers: " (ArgMessage (message e))]) s)
  | FetchResponse true _ (inr driversData) =>
      (Normal tt,
       set_drivers
         (map (fun d => {| Driver.id := fst d; Driver.name := snd d;
                           Driver.profit := 0; Driver.isAvailable := true;
                           Driver.isVIP := false; Driver.VIPRaiting := 0 |})
              driversData) s)
  end.
Proof.
  destruct net as [e|[] st [e|ds]]; reflexivity.
Qed.

(** X17.  [startApp] never throws, whatever the argument, the answer of
    the network and the state; and when the batch throws, the state is
    the one in which it threw plus one [console.error] line that carries
    the exception. *)
Theorem startApp_never_throws net numRides s :
  fst (RideSharingApp.startApp net numRides s) = Normal tt
  /\ forall q e s1,
       numRides = JsNum q ->
       RideSharingApp.processMultipleRides q
         (after (RideSharingApp.fetchDrivers net)
            (set_console
               (console s ++ [console_log [Lit "App started successfully!"]]) s))
       = (Throw e, s1) ->
       after (RideSharingApp.startApp net numRides) s
       = set_console
           (console s1 ++ [console_error "Error starting the app:" (ArgExn e)]) s1.
Proof.
  split.
  - unfold RideSharingApp.startApp, try_catch.
    match goal with |- fst (match ?m with _ => _ end) = _ =>
      destruct m as [[[]|e] s']; reflexivity
    end.
  - intros q e s1 -> E.
    unfold after, RideSharingApp.startApp, try_catch.
    change (negb (typeof (JsNum q) =? "number")) with false. cbv iota.
    erewrite bind_Normal by reflexivity.
    assert (Hf := fetchDrivers_Normal net
                    (set_console
                       (console s ++ [console_log [Lit "App started successfully!"]]) s)).
    unfold after in E.
    destruct (RideSharingApp.fetchDrivers net _) as [[[]|e'] s2] eqn:Ef;
      [|discriminate Hf].
    erewrite bind_Normal by exact Ef.
    simpl in E. rewrite E. reflexivity.
Qed.

Lemma startApp_never_throws_witness :
  fst (RideSharingApp.startApp (FetchRejected (TypeError [Lit "fetch failed"]))
         (JsNum 10) seed_app) = Normal tt
  /\ console (after (RideSharingApp.startApp
                       (FetchRejected (TypeError [Lit "fetch failed"])) (JsNum 10))
                    seed_app)
     = [console_log [Lit "App started successfully!"];
        console_error "Error fetching drivers: " (ArgMessage [Lit "fetch failed"]);
        console_error "Error starting the app:" (ArgExn initError)].
Proof.
  destruct (startApp_never_throws (FetchRejected (TypeError [Lit "fetch failed"]))
              (JsNum 10) seed_app) as [Hfst Hthrow].
  split; [exact Hfst|].
  rewrite (Hthrow 10%Q initError
             (after (RideSharingApp.fetchDrivers
                       (FetchRejected (TypeError [Lit "fetch failed"])))
                (set_console
                   (console seed_app ++
                    [console_log [Lit "App started successfully!"]]) seed_app))
             eq_refl).
  - reflexivity.
  - vm_compute. reflexivity.
Defined.

(** X18.  For a count that is not positive the loop of the generator
    runs no turn: [processMultipleRides] returns at once and neither
    writes a line nor changes anything. *)
Theorem processMultipleRides_nonpositive q s :
  (q <= 0)%Q -> RideSharingApp.processMultipleRides q s = (Normal tt, s).
Proof.
  intros Hq. unfold RideSharingApp.processMultipleRides.
  by rewrite iterations_nonpos.
Qed.

Lemma processMultipleRides_nonpositive_witness :
  RideSharingApp.processMultipleRides (-3) seed_app = (Normal tt, seed_app).
Proof.
  apply (processMultipleRides_nonpositive (-3) seed_app). discriminate.
Defined.

(** ** VIP drivers and ratings that are not negative *)

(** X19.  A VIP driver whose flag agrees with the score keeps the flag
    under every rating that is not negative: the score does not
    decrease, no "regularDriver" event is emitted and no line written.
    The ratings that [rideCompleted] draws are of that kind. *)
Theorem addRaiting_never_downgrades r em d :
  (0 <= r)%Q -> vipOK d -> Driver.isVIP d = true ->
  Driver.isVIP (fst (Driver.addRaiting r em d)) = true /\
  (Driver.VIPRaiting d <= Driver.VIPRaiting (fst (Driver.addRaiting r em d)))%Q /\
  snd (Driver.addRaiting r em d) = [].
Proof.
  intros Hr Hok Hvip. unfold vipOK in Hok. rewrite Hvip in Hok.
  symmetry in Hok. apply num_ge_iff in Hok.
  assert (Hz : num_eq (Driver.VIPRaiting d) 0 = false).
  { destruct (num_eq _ _) eqn:E; [|done]. apply num_eq_iff in E. lra. }
  assert (Hv : (Driver.VIPRaiting d <=
                Driver.VIPRaiting (fst (Driver.addRaiting r em d)))%Q).
  { rewrite addRaiting_VIPRaiting, Hz.
    assert (0 <= r / 2)%Q by (apply Qle_shift_div_l; lra). lra. }
  split; [|split; [exact Hv|]].
  - rewrite addRaiting_isVIP. apply num_ge_iff. lra.
  - revert Hv. unfold Driver.addRaiting, Driver.checkForUpgrade. rewrite Hz.
    simpl. rewrite Hvip. simpl. rewrite andb_false_r, andb_true_r.
    unfold num_lt.
    destruct (Qle_bool 4 _) eqn:E; [done|].
    intros _. exfalso.
    assert (0 <= r / 2)%Q by (apply Qle_shift_div_l; lra).
    assert (Hge : (4 <= Driver.VIPRaiting d + (Driver.VIPRaiting d + r / 2))%Q) by lra.
    apply Qle_bool_iff in Hge. congruence.
Qed.

Lemma addRaiting_never_downgrades_witness :
  Driver.isVIP (fst (Driver.addRaiting 1 listeners0 vip_driver)) = true /\
  (Driver.VIPRaiting vip_driver
   <= Driver.VIPRaiting (fst (Driver.addRaiting 1 listeners0 vip_driver)))%Q /\
  snd (Driver.addRaiting 1 listeners0 vip_driver) = [].
Proof.
  apply (addRaiting_never_downgrades 1 listeners0 vip_driver);
    [discriminate | reflexivity | reflexivity].
Defined.

(** ** What a run never touches *)

Lemma same_rider_refl u : same_rider u u.
Proof. by repeat split. Qed.

Lemma same_rider_trans u v w : same_rider u v -> same_rider v w -> same_rider u w.
Proof.
  intros (?&?&?&?&?) (?&?&?&?&?). repeat split; congruence.
Qed.

Lemma same_trip_refl r : same_trip r r.
Proof. by destruct r. Qed.

Lemma same_trip_status r r' st : same_trip r r' -> same_trip r (Ride.set_status st r').
Proof. unfold same_trip. intros <-. by destruct r'. Qed.

Lemma addPoints_same_rider p em u : same_rider u (fst (User.addPoints p em u)).
Proof.
  unfold User.addPoints, User.checkForUpgrade, User.upgradeToPremium.
  simpl. destruct (_ && _); by repeat split.
Qed.

Lemma continues_refl s : continues s s.
Proof.
  repeat split; try done.
  - intros i u Hu. exists u. split; [done | apply same_rider_refl].
  - intros k r Hr. exists r. split; [done | apply same_trip_refl].
Qed.

Lemma continues_console s0 s out :
  continues s0 s -> continues s0 (set_console (console s ++ out) s).
Proof.
  intros (?&?&?&?&?&Hc). repeat split; try done. simpl.
  etransitivity; [exact Hc | by apply prefix_app_r].
Qed.

Lemma continues_users s0 s f i :
  (forall x, users s !! i = Some x -> same_rider x (f x)) ->
  continues s0 s -> continues s0 (set_users (alter f i (users s)) s).
Proof.
  intros Hf (?&?&Hl&Hu&?&?). repeat split; try done; simpl.
  - by rewrite length_alter.
  - intros k u Hk. destruct (Hu k u Hk) as (x & Hx & Hsame).
    rewrite list_lookup_alter. destruct (decide (i = k)) as [->|Hne].
    + rewrite Hx. simpl. exists (f x). split; [done|].
      eapply same_rider_trans; [exact Hsame | by apply Hf].
    + by exists x.
Qed.

Lemma continues_status s0 s st k :
  continues s0 s ->
  continues s0 (set_rides (alter (Ride.set_status st) k (rides s)) s).
Proof.
  intros (?&?&?&?&Hr&?). repeat split; try done; simpl.
  intros j r Hj. destruct (Hr j r Hj) as (x & Hx & Hsame).
  rewrite list_lookup_alter. destruct (decide (k = j)) as [->|Hne].
  - rewrite Hx. simpl. eexists. split; [done|]. by apply same_trip_status.
  - by exists x.
Qed.

Lemma continues_push s0 s r :
  continues s0 s -> continues s0 (set_rides (rides s ++ [r]) s).
Proof.
  intros (?&?&?&?&Hr&?). repeat split; try done; simpl.
  intros j x Hj. destruct (Hr j x Hj) as (x' & Hx & Hsame).
  exists x'. split; [|done]. by apply lookup_app_l_Some.
Qed.

Lemma continues_rest s0 s s' :
  locations s' = locations s -> eventEmitter s' = eventEmitter s ->
  users s' = users s -> rides s' = rides s -> console s' = console s ->
  continues s0 s -> continues s0 s'.
Proof.
  intros E1 E2 E3 E4 E5 (?&?&?&?&?&?). unfold continues.
  rewrite E1, E2, E3, E4, E5. done.
Qed.

Section Continues.
Variable s0 : State.

Lemma writeUser_continues prop ref f :
  (forall x, same_rider x (f x)) ->
  preserves (continues s0) (writeUser prop ref f).
Proof.
  intros Hf. unfold writeUser. repeat preserve_step.
  apply continues_users; [|assumption]. intros x _. apply Hf.
Qed.

Lemma writeDriver_continues prop ref f :
  preserves (continues s0) (writeDriver prop ref f).
Proof.
  unfold writeDriver. repeat preserve_step.
  eapply continues_rest; [..|eassumption]; reflexivity.
Qed.

Lemma Math_random_continues : preserves (continues s0) Math_random.
Proof. intros s H. eapply continues_rest; [..|exact H]; reflexivity. Qed.

Lemma callUser_addPoints_continues prop ref p :
  preserves (continues s0) (RideSharingApp.callUser prop ref (User.addPoints p)).
Proof.
  intros s H.
  unfold RideSharingApp.callUser, readUser, writeUser, emitted, bind, get,
    modify, ret, throw.
  destruct ref as [i|]; simpl; [|exact H].
  destruct (users s !! i) as [u|] eqn:E; simpl; [|exact H].
  destruct (User.addPoints p (eventEmitter s) u) as [u' out] eqn:Ea.
  simpl. rewrite E. simpl.
  apply (continues_console s0 (set_users (alter (fun _ => u') i (users s)) s) out).
  apply continues_users; [|exact H].
  intros x Hx. rewrite E in Hx. injection Hx as <-.
  replace u' with (fst (User.addPoints p (eventEmitter s) u)) by (by rewrite Ea).
  apply addPoints_same_rider.
Qed.

(** The payment service writes the rider's payment details back with a
    new balance: card number and expiry are those it read. *)
Lemma processPayment_continues user fare driver :
  preserves (continues s0) (PaymentService.processPayment user fare driver).
Proof.
  intros s H.
  unfold PaymentService.processPayment, readUser, writeUser, readDriver,
    writeDriver, bind, get, modify, ret, throw.
  destruct user as [i|]; simpl; [|exact H].
  destruct (users s !! i) as [u|] eqn:Hu; simpl; [|exact H].
  rewrite Hu. simpl.
  match goal with |- context [set_users ?us s] =>
    assert (Hdeb : continues s0 (set_users us s))
  end.
  { apply continues_users; [|exact H].
    intros x Hx. rewrite Hu in Hx. injection Hx as <-. by repeat split. }
  destruct driver as [j|]; simpl; [|exact Hdeb].
  destruct (drivers s !! j) as [d|] eqn:Hd; simpl; [|exact Hdeb].
  rewrite Hd. simpl.
  eapply continues_rest; [..|exact Hdeb]; reflexivity.
Qed.
End Continues.

Ltac continues_leaf :=
  lazymatch goal with
  | |- preserves _ Math_random => apply Math_random_continues
  | |- preserves _ (writeDriver _ _ _) => apply writeDriver_continues
  | |- preserves _ (PaymentService.processPayment _ _ _) =>
      apply processPayment_continues
  | |- preserves _ (RideSharingApp.callUser _ _ (User.addPoints _)) =>
      apply callUser_addPoints_continues
  | |- preserves _ (writeUser _ _ _) =>
      apply writeUser_continues; intros ?; by repeat split
  | |- continues _ (set_console (console ?s ++ _) ?s) =>
      apply continues_console; assumption
  | |- continues _ (set_rides (alter (Ride.set_status _) _ (rides ?s)) ?s) =>
      apply continues_status; assumption
  | |- continues _ (set_rides (rides ?s ++ _) ?s) =>
      apply continues_push; assumption
  | |- continues _ _ =>
      first [ assumption
            | eapply continues_rest; [..|eassumption]; reflexivity ]
  end.

Ltac continuing := repeat first [ preserve_step | continues_leaf ].

Section ContinuesRun.
Variable s0 : State.

Lemma payment_continues ride :
  preserves (continues s0) (RideSharingApp.payment ride).
Proof.
  unfold RideSharingApp.payment, log. continuing.
Qed.

Lemma runTimers_continues ts :
  preserves (continues s0) (RideSharingApp.runTimers ts).
Proof.
  induction ts as [|t ts IH]; simpl; continuing; [|exact IH].
  unfold RideSharingApp.rideCompleted_callback, RideSharingApp.callDriver,
    writeRide, log, emitted.
  continuing.
Qed.

Lemma forAwait_continues n :
  preserves (continues s0) (RideSharingApp.forAwait n).
Proof.
  induction n as [|n IH]; simpl; continuing.
  - unfold RideSharingApp.generateRides_body, RideFactory.rideRequest,
      RideSharingApp.randomIndexMethod, log.
    continuing.
  - unfold RideSharingApp.sleep. continuing. apply runTimers_continues.
  - unfold RideSharingApp.processRide, RideSharingApp.rideCompleted,
      RideSharingApp.setTimeout, writeRide, log.
    continuing. all: apply payment_continues.
  - exact IH.
Qed.
End ContinuesRun.

(** X20.  Whatever the argument, the answer of the network and the draws,
    and whether or not it ends in an error, a run of [startApp] followed
    by the pending timers leaves the locations and the listeners as they
    were; no rider is added or removed, and each keeps class, id, name,
    card number and expiry; every ride that was in the registry is still
    at its place and differs at most in its status; and the lines that
    were on the console are still there, in front of the new ones. *)
Theorem startApp_continues net numRides s :
  continues s (after (RideSharingApp.startApp net numRides ;; settle) s).
Proof.
  assert (H : preserves (continues s) (RideSharingApp.startApp net numRides ;; settle)).
  { unfold RideSharingApp.startApp, RideSharingApp.processMultipleRides,
      RideSharingApp.fetchDrivers, settle, log, log_error.
    continuing. all: first [ apply forAwait_continues | apply runTimers_continues ]. }
  apply H, continues_refl.
Qed.
